(** * Chat backend (src/main.py): a shallow embedding and its properties

    The FastAPI handlers of [main.py] are embedded as functions over an
    explicit image of the SQLite file [chat_app.db].  Each handler opens its
    own connection, so a handler is a function from the database on disk to
    what the handler returns or raises and the database it leaves on disk.

    Modelling conventions.
    - Python [int] is [Z].  The [sqlite3] binding hands an [int] to SQLite
      only when it fits a signed 64-bit INTEGER; otherwise
      [cursor.execute] raises [OverflowError].
    - Python [str] is the [string] of its UTF-8 bytes, which is what
      SQLite stores and compares; a [str] without UTF-8 encoding (a lone
      surrogate) is not a value of this type.
    - A table is the list of its rows in rowid order (the order of a table
      scan) together with its [sqlite_sequence] counter (AUTOINCREMENT).
      An AUTOINCREMENT table whose ids have reached 2^63-1 refuses further
      rows ([OperationalError], "database or disk is full").
    - An exception that leaves a handler is answered by the framework with
      HTTP 500 and no JSON body.
    - A connection carries a working copy of the database; [commit] makes
      the working copy the committed image, and a connection that is closed
      or dropped leaves the committed image on disk.
    - [ORDER BY] is SQLite's sorter: a stable sort of the scanned rows.
    - Handlers run one at a time; interleavings of concurrent requests are
      outside this model.
    - The push provider ([firebase_admin.messaging.send]) and SHA-256 are
      library code: they are parameters of the development. *)

From Stdlib Require Import ZArith List String Ascii Bool Lia.
From Stdlib Require Import Sorted Permutation OrderedTypeEx.
Import ListNotations.
Open Scope string_scope.
Open Scope list_scope.
Open Scope Z_scope.

(** ** Response bodies *)

#[local] Set Warnings "-register-all".

(** JSON values, as far as the handlers build them.  A Python [dict] keeps
    its keys in insertion order, hence the association list. *)
Inductive json : Type :=
| JNull
| JInt (n : Z)
| JStr (s : string)
| JList (items : list json)
| JObj (fields : list (string * json)).

(** [unified_response(status, msg, data=None)] *)
Definition unified_response (status : Z) (msg : string) (data : json) : json :=
  JObj [("status", JInt status); ("msg", JStr msg); ("data", data)].


Definition envelope_status (j : json) : option Z :=
  match j with
  | JObj (("status", JInt status) :: _) => Some status
  | _ => None
  end.

(** ** Exceptions *)

(** The exceptions that the [sqlite3] calls of the handlers can raise. *)
Inductive exception :=
| OverflowError     (* Python int too large to convert to SQLite INTEGER *)
| OperationalError. (* database or disk is full *)

(** What a computation does: it returns a value or raises.  For a handler,
    [Returns body] is the JSON body sent to the client and [Raises e] an
    uncaught exception, answered with HTTP 500 and no envelope. *)
Inductive raising (A : Type) :=
| Returns (a : A)
| Raises (e : exception).
Arguments Returns {A} a.
Arguments Raises {A} e.

(** The envelope status of what a handler answers, if it answers one. *)
Definition reply_status (r : raising json) : option Z :=
  match r with
  | Returns body => envelope_status body
  | Raises _ => None
  end.

(** ** Request models (pydantic) *)

Record UserModel := { username : string; password : string }.
Record PushTokenModel := { user_id : Z; token : string }.
Record MessageModel :=
  { sender_id : Z; sender_name : string; message : string; room_id : Z }.

(** ** The database *)

Record chat_rooms_row := { chat_rooms_id : Z; chat_rooms_name : string }.

Record users_row :=
  { users_id : Z; users_username : string; users_password : string }.

Record push_tokens_row :=
  { push_tokens_id : Z; push_tokens_user_id : Z; push_tokens_token : string }.

(** [timestamp] holds the text of CURRENT_TIMESTAMP at insertion. *)
Record messages_row :=
  { messages_id : Z;
    messages_room_id : Z;
    messages_sender_id : Z;
    messages_sender_name : string;
    messages_message : string;
    messages_timestamp : string }.

Record table (R : Type) := { rows : list R; seq : Z }.
Arguments rows {R} _.
Arguments seq {R} _.

Definition empty_table {R : Type} : table R := {| rows := []; seq := 0 |}.

Record db :=
  { chat_rooms : table chat_rooms_row;
    users : table users_row;
    push_tokens : table push_tokens_row;
    messages : table messages_row }.

(** The file as [create_db] finds it: any of the tables may be missing. *)
Record db_file :=
  { file_chat_rooms : option (table chat_rooms_row);
    file_users : option (table users_row);
    file_push_tokens : option (table push_tokens_row);
    file_messages : option (table messages_row) }.

Definition no_file : db_file :=
  {| file_chat_rooms := None; file_users := None;
     file_push_tokens := None; file_messages := None |}.

Definition on_disk (d : db) : db_file :=
  {| file_chat_rooms := Some (chat_rooms d);
     file_users := Some (users d);
     file_push_tokens := Some (push_tokens d);
     file_messages := Some (messages d) |}.

(** *** SQLite integers *)

Definition min_int64 : Z := - 2 ^ 63.
Definition max_int64 : Z := 2 ^ 63 - 1.

(** Whether a Python [int] converts to an SQLite INTEGER. *)
Definition fits_int64 (n : Z) : bool := (min_int64 <=? n) && (n <=? max_int64).

(** Binding the [int] parameters of a statement: [cursor.execute] raises
    [OverflowError] before the statement runs when one of them does not
    fit. *)
Definition bind_ints {A : Type} (params : list Z) (run : raising A) : raising A :=
  if forallb fits_int64 params then run else Raises OverflowError.

(** *** SQL statements *)

(** CREATE TABLE IF NOT EXISTS *)
Definition create_table_if_not_exists {R : Type} (t : option (table R)) : table R :=
  match t with
  | Some t => t
  | None => empty_table
  end.

(** Largest rowid of a table, 0 when it is empty. *)
Definition max_rowid {R : Type} (rowid : R -> Z) (l : list R) : Z :=
  fold_right (fun r m => Z.max (rowid r) m) 0 l.

(** The rowid AUTOINCREMENT gives to a row inserted without an id. *)
Definition next_rowid {R : Type} (rowid : R -> Z) (t : table R) : Z :=
  Z.max (max_rowid rowid (rows t)) (seq t) + 1.

(** INSERT without an id: the new row takes [next_rowid], which is larger
    than every rowid of the table, so it is last in rowid order.  When the
    ids are used up to 2^63-1 the insert fails and the table is left as it
    was. *)
Definition insert_auto {R : Type} (rowid : R -> Z) (mk : Z -> R) (t : table R)
  : raising (table R) :=
  let id := next_rowid rowid t in
  if id <=? max_int64
  then Returns {| rows := rows t ++ [mk id]; seq := id |}
  else Raises OperationalError.

(** Insertion of a row with an explicit id, keeping rowid order. *)
Fixpoint insert_by_rowid {R : Type} (rowid : R -> Z) (r : R) (l : list R) : list R :=
  match l with
  | [] => [r]
  | x :: l' =>
      if rowid r <? rowid x then r :: x :: l' else x :: insert_by_rowid rowid r l'
  end.

(** A row conflicts with the table when its id (PRIMARY KEY) or its name
    (UNIQUE) is already there. *)
Definition chat_rooms_conflict (r : chat_rooms_row) (t : table chat_rooms_row) : bool :=
  existsb (fun x => (chat_rooms_id x =? chat_rooms_id r)
                    || (chat_rooms_name x =? chat_rooms_name r)%string)
          (rows t).

(** INSERT OR IGNORE INTO chat_rooms (id, name) VALUES (?, ?): a row that
    conflicts is skipped.  The AUTOINCREMENT counter is raised to the
    given id before the constraints are checked, so also when the row is
    skipped. *)
Definition insert_or_ignore_chat_room (r : chat_rooms_row) (t : table chat_rooms_row)
  : table chat_rooms_row :=
  {| rows := if chat_rooms_conflict r t then rows t
             else insert_by_rowid chat_rooms_id r (rows t);
     seq := Z.max (seq t) (chat_rooms_id r) |}.

(** [cursor.executemany]: the statement runs once per parameter tuple, in
    order. *)
Definition executemany {A S : Type} (stmt : A -> S -> S) (params : list A) (s : S) : S :=
  fold_left (fun s a => stmt a s) params s.

Definition seeded_rooms : list chat_rooms_row :=
  [ {| chat_rooms_id := 1; chat_rooms_name := "General" |};
    {| chat_rooms_id := 2; chat_rooms_name := "Technology" |};
    {| chat_rooms_id := 3; chat_rooms_name := "Random" |} ].

Definition create_db (f : db_file) : db :=
  let rooms := create_table_if_not_exists (file_chat_rooms f) in
  let rooms := executemany insert_or_ignore_chat_room seeded_rooms rooms in
  {| chat_rooms := rooms;
     users := create_table_if_not_exists (file_users f);
     push_tokens := create_table_if_not_exists (file_push_tokens f);
     messages := create_table_if_not_exists (file_messages f) |}.

(** [ORDER BY key ASC]: a row goes in front of the first row whose key is
    not smaller, and the scan is folded from its last row, so rows with
    equal keys keep the order of the scan. *)
Fixpoint sorter_insert {R : Type} (le : R -> R -> bool) (r : R) (l : list R) : list R :=
  match l with
  | [] => [r]
  | x :: l' => if le r x then r :: x :: l' else x :: sorter_insert le r l'
  end.

Definition order_by {R : Type} (le : R -> R -> bool) (scan : list R) : list R :=
  fold_right (sorter_insert le) [] scan.

(** The rows of SELECT * FROM chat_rooms WHERE id = ? ; fetchone() *)
Definition select_room (d : db) (id : Z) : option chat_rooms_row :=
  find (fun r => chat_rooms_id r =? id) (rows (chat_rooms d)).

(** [cursor.execute("SELECT * FROM chat_rooms WHERE id = ?", (id,))] and
    [fetchone()] *)
Definition execute_select_room (d : db) (id : Z) : raising (option chat_rooms_row) :=
  bind_ints [id] (Returns (select_room d id)).

(** SELECT * FROM users WHERE username=? ; fetchone() *)
Definition select_user (d : db) (name : string) : option users_row :=
  find (fun u => (users_username u =? name)%string) (rows (users d)).

(** SELECT * FROM push_tokens WHERE token=? ; fetchone() *)
Definition select_push_token (d : db) (tok : string) : option push_tokens_row :=
  find (fun t => (push_tokens_token t =? tok)%string) (rows (push_tokens d)).

(** SELECT token FROM push_tokens ; fetchall() *)
Definition select_tokens (d : db) : list string :=
  map push_tokens_token (rows (push_tokens d)).

(** SELECT sender_id, sender_name, message, timestamp FROM messages
    WHERE room_id = ? ORDER BY timestamp ASC ; fetchall() *)
Definition timestamp_le (a b : messages_row) : bool :=
  (messages_timestamp a <=? messages_timestamp b)%string.

Definition select_messages (d : db) (id : Z) : list messages_row :=
  order_by timestamp_le
           (filter (fun m => messages_room_id m =? id) (rows (messages d))).

Definition execute_select_messages (d : db) (id : Z) : raising (list messages_row) :=
  bind_ints [id] (Returns (select_messages d id)).

(** SELECT id, name FROM chat_rooms ORDER BY id ASC ; fetchall() *)
Definition select_rooms (d : db) : list chat_rooms_row :=
  order_by (fun a b => chat_rooms_id a <=? chat_rooms_id b) (rows (chat_rooms d)).

(** A statement that replaces one table of the database. *)
Definition with_table {R : Type} (t : raising (table R)) (put : table R -> db)
  : raising db :=
  match t with
  | Returns t => Returns (put t)
  | Raises e => Raises e
  end.

(** INSERT INTO users (username, password) VALUES (?, ?) *)
Definition insert_user (name pw : string) (d : db) : raising db :=
  with_table
    (insert_auto users_id
       (fun id => {| users_id := id; users_username := name; users_password := pw |})
       (users d))
    (fun t => {| chat_rooms := chat_rooms d; users := t;
                 push_tokens := push_tokens d; messages := messages d |}).

(** INSERT INTO push_tokens (user_id, token) VALUES (?, ?) *)
Definition insert_push_token (uid : Z) (tok : string) (d : db) : raising db :=
  bind_ints [uid]
    (with_table
       (insert_auto push_tokens_id
          (fun id => {| push_tokens_id := id; push_tokens_user_id := uid;
                        push_tokens_token := tok |})
          (push_tokens d))
       (fun t => {| chat_rooms := chat_rooms d; users := users d;
                    push_tokens := t; messages := messages d |})).

(** INSERT INTO messages (sender_id, sender_name, message, room_id)
    VALUES (?, ?, ?, ?) ; [now] is CURRENT_TIMESTAMP, the column default. *)
Definition insert_message (m : MessageModel) (now : string) (d : db) : raising db :=
  bind_ints [sender_id m; room_id m]
    (with_table
       (insert_auto messages_id
          (fun id => {| messages_id := id;
                        messages_room_id := room_id m;
                        messages_sender_id := sender_id m;
                        messages_sender_name := sender_name m;
                        messages_message := message m;
                        messages_timestamp := now |})
          (messages d))
       (fun t => {| chat_rooms := chat_rooms d; users := users d;
                    push_tokens := push_tokens d; messages := t |})).

(** *** Connections *)

Record connection := { committed : db; working : db }.

(** [sqlite3.connect(DB_NAME)] *)
Definition connect (d : db) : connection := {| committed := d; working := d |}.

(** [cursor.execute] of a statement that writes; a statement that raises
    leaves the connection as it was. *)
Definition execute (stmt : db -> raising db) (conn : connection) : raising connection :=
  match stmt (working conn) with
  | Returns d => Returns {| committed := committed conn; working := d |}
  | Raises e => Raises e
  end.

(** [conn.commit()] *)
Definition commit (conn : connection) : connection :=
  {| committed := working conn; working := working conn |}.

(** [conn.close()], and also what is left of a connection that a handler
    leaves without closing (an early return, an exception): changes that
    were not committed are lost. *)
Definition close (conn : connection) : db := committed conn.

(** ** The push provider *)

Module messaging.
Record Notification := { title : string; body : string }.
Record Message := { notification : Notification; token : string }.
End messaging.

(** What building and sending one message does inside the [try]: it
    returns the provider's response, or raises an [Exception] [e] (a
    rejected token, a network or provider error), of which the handler
    keeps [str(e)]. *)
Inductive send_result :=
| Returned (response : string)
| Raised (error : string).

(** What a handler run did, in order. *)
Inductive event :=
| Commit (image : db)
| Send (m : messaging.Message).

(** ** The handlers *)

Section Handlers.

(** State of the push provider and its single-send operation. *)
Variable P : Type.
Variable send : messaging.Message -> P -> send_result * P.

(** [sha256(s.encode()).hexdigest()] *)
Variable sha256_hexdigest : string -> string.

Definition hash_password (password : string) : string :=
  sha256_hexdigest password.

(** POST /register *)
Definition register (user : UserModel) (d : db) : raising json * db :=
  let conn := connect d in
  match select_user (working conn) (username user) with
  | Some _ =>
      (Returns (unified_response 1 "Username already exists" JNull), close conn)
  | None =>
      let hashed_password := hash_password (password user) in
      match execute (insert_user (username user) hashed_password) conn with
      | Raises e => (Raises e, close conn)
      | Returns conn =>
          let conn := commit conn in
          (Returns (unified_response 0 "User registered successfully" JNull),
           close conn)
      end
  end.

(** POST /login *)
Definition login (user : UserModel) (d : db) : json * db :=
  let conn := connect d in
  match select_user (working conn) (username user) with
  | None => (unified_response 1 "Invalid username or password" JNull, close conn)
  | Some existing_user =>
      if negb (users_password existing_user =? hash_password (password user))%string
      then (unified_response 1 "Invalid username or password" JNull, close conn)
      else
        let user_info :=
          JObj [("user_id", JInt (users_id existing_user));
                ("username", JStr (users_username existing_user))] in
        (unified_response 0 "Login successful" user_info, close conn)
  end.

(** POST /submit_push_token *)
Definition submit_push_token (push_token : PushTokenModel) (d : db)
  : raising json * db :=
  let conn := connect d in
  match select_push_token (working conn) (token push_token) with
  | Some _ => (Returns (unified_response 0 "Token already exists" JNull), close conn)
  | None =>
      match execute (insert_push_token (user_id push_token) (token push_token)) conn
      with
      | Raises e => (Raises e, close conn)
      | Returns conn =>
          let conn := commit conn in
          (Returns (unified_response 0 "Token stored successfully" JNull), close conn)
      end
  end.

(** The provider message built for one token. *)
Definition message_notification (room : chat_rooms_row) (msg : MessageModel)
           (tok : string) : messaging.Message :=
  {| messaging.notification :=
       {| messaging.title := (chat_rooms_name room ++ ": " ++ sender_name msg)%string;
          messaging.body := message msg |};
     messaging.token := tok |}.

(** The loop [for token in tokens: try ... except Exception as e ...]:
    the entries appended to [notifications], the messages handed to
    [messaging.send], and the provider afterwards. *)
Fixpoint notify (room : chat_rooms_row) (msg : MessageModel)
         (tokens : list string) (p : P)
  : list json * list messaging.Message * P :=
  match tokens with
  | [] => ([], [], p)
  | tok :: tokens' =>
      let m := message_notification room msg tok in
      let '(result, p) := send m p in
      let entry :=
        match result with
        | Returned response => JObj [("token", JStr tok); ("response", JStr response)]
        | Raised e => JObj [("token", JStr tok); ("error", JStr e)]
        end in
      let '(notifications, sent, p) := notify room msg tokens' p in
      (entry :: notifications, m :: sent, p)
  end.

Record run :=
  { response : raising json; (* the body returned to the client, or the exception *)
    database : db;           (* the database left on disk *)
    provider : P;            (* the provider afterwards *)
    trace : list event }.    (* commits and sends, in the order they happened *)

(** A run that ends before anything is committed or sent. *)
Definition ends_with (r : raising json) (conn : connection) (p : P) : run :=
  {| response := r; database := close conn; provider := p; trace := [] |}.

(** POST /send_message_and_notify ; [now] is the clock at the insert. *)
Definition send_message_and_notify (message : MessageModel) (now : string)
           (d : db) (p : P) : run :=
  let conn := connect d in
  match execute_select_room (working conn) (room_id message) with
  | Raises e => ends_with (Raises e) conn p
  | Returns None =>
      ends_with (Returns (unified_response 1 "Invalid room ID" JNull)) conn p
  | Returns (Some room) =>
      match execute (insert_message message now) conn with
      | Raises e => ends_with (Raises e) conn p
      | Returns conn =>
          let conn := commit conn in
          let ev_commit := Commit (committed conn) in
          let tokens := select_tokens (working conn) in
          let '(notifications, sent, p) := notify room message tokens p in
          {| response :=
               Returns (unified_response 0 "Message sent and notifications processed"
                          (JObj [("notifications", JList notifications)]));
             database := close conn;
             provider := p;
             trace := ev_commit :: map Send sent |}
      end
  end.

(** GET /get_chat_rooms *)
Definition get_chat_rooms (d : db) : json :=
  let rooms := select_rooms d in
  match rooms with
  | [] => unified_response 1 "No chat rooms found" JNull
  | _ =>
      let formatted_rooms :=
        map (fun r => JObj [("room_id", JInt (chat_rooms_id r));
                            ("name", JStr (chat_rooms_name r))]) rooms in
      unified_response 0 "Chat rooms retrieved successfully" (JList formatted_rooms)
  end.

Definition format_message (m : messages_row) : json :=
  JObj [("sender_id", JInt (messages_sender_id m));
        ("sender_name", JStr (messages_sender_name m));
        ("message", JStr (messages_message m));
        ("timestamp", JStr (messages_timestamp m))].

(** GET /get_messages/{room_id} ; the handler also prints the body it
    returns, which changes neither the body nor the database. *)
Definition get_messages (room_id : Z) (d : db) : raising json :=
  match execute_select_room d room_id with
  | Raises e => Raises e
  | Returns None => Returns (unified_response 1 "Invalid room ID" JNull)
  | Returns (Some room) =>
      match execute_select_messages d room_id with
      | Raises e => Raises e
      | Returns messages =>
          let formatted_messages := map format_message messages in
          Returns (unified_response 0
                     ("Messages retrieved successfully from "
                        ++ chat_rooms_name room)%string
                     (JList formatted_messages))
      end
  end.

(** GET /demo/ ; [today] is [date.today()] as [jsonable_encoder] writes
    it (ISO format). *)
Definition get_demo (a b : Z) (today : string) : json :=
  let sum_result := a + b in
  JObj [("sum", JInt sum_result); ("date", JStr today)].

(** *** The server as a whole *)

Inductive request :=
| Register (user : UserModel)
| Login (user : UserModel)
| SubmitPushToken (push_token : PushTokenModel)
| SendMessageAndNotify (message : MessageModel) (now : string)
| GetChatRooms
| GetMessages (room_id : Z)
| GetDemo (a b : Z) (today : string).

(** One request served: what the handler answers, the database and the
    provider after. *)
Definition serve (req : request) (d : db) (p : P) : raising json * db * P :=
  match req with
  | Register user => let '(reply, d) := register user d in (reply, d, p)
  | Login user => let '(body, d) := login user d in (Returns body, d, p)
  | SubmitPushToken push_token =>
      let '(reply, d) := submit_push_token push_token d in (reply, d, p)
  | SendMessageAndNotify message now =>
      let r := send_message_and_notify message now d p in
      (response r, database r, provider r)
  | GetChatRooms => (Returns (get_chat_rooms d), d, p)
  | GetMessages room_id => (get_messages room_id d, d, p)
  | GetDemo a b today => (Returns (get_demo a b today), d, p)
  end.

(** The databases the server can hold: [create_db] runs when the module
    is loaded, first on no file and later on the file a previous run
    left, and every request is served from there. *)
Inductive reachable : db -> Prop :=
| reachable_first_start : reachable (create_db no_file)
| reachable_restart d : reachable d -> reachable (create_db (on_disk d))
| reachable_serve d req p :
    reachable d -> reachable (snd (fst (serve req d p))).

End Handlers.

Arguments notify {P} send room msg tokens p.
Arguments ends_with {P} r conn p.
Arguments send_message_and_notify {P} send message now d p.
Arguments serve {P} send sha256_hexdigest req d p.
Arguments reachable {P} send sha256_hexdigest d.
Arguments reachable_first_start {P} send sha256_hexdigest.
Arguments reachable_restart {P} send sha256_hexdigest d _.
Arguments reachable_serve {P} send sha256_hexdigest d req p _.
Arguments response {P} _.
Arguments database {P} _.
Arguments provider {P} _.
Arguments trace {P} _.

(** ** Vocabulary of the properties *)

(** Rows are stored in strictly increasing rowid order. *)
Definition rowid_ordered {R : Type} (rowid : R -> Z) (l : list R) : Prop :=
  StronglySorted (fun a b => rowid a < rowid b) l.

Definition db_ok (d : db) : Prop :=
  rowid_ordered messages_id (rows (messages d))
  /\ NoDup (select_tokens d).


(** [a] may precede [b] in the result of a sort of rows scanned in the
    order [scanned]: it is not larger, and when the two tie it was scanned
    first. *)
Definition sorted_stably {R : Type} (le : R -> R -> bool) (scanned : R -> R -> Prop)
           (a b : R) : Prop :=
  le a b = true /\ (le b a = true -> scanned a b).

(** The row that a submit request stores. *)
Definition stored_row (msg : MessageModel) (now : string) (d : db) : messages_row :=
  {| messages_id := next_rowid messages_id (messages d);
     messages_room_id := room_id msg;
     messages_sender_id := sender_id msg;
     messages_sender_name := sender_name msg;
     messages_message := message msg;
     messages_timestamp := now |}.

(** The database with that row stored. *)
Definition message_stored (msg : MessageModel) (now : string) (d : db) : db :=
  {| chat_rooms := chat_rooms d;
     users := users d;
     push_tokens := push_tokens d;
     messages := {| rows := rows (messages d) ++ [stored_row msg now d];
                    seq := next_rowid messages_id (messages d) |} |}.

(** The database with a token stored for a user under the next id. *)
Definition token_stored (uid : Z) (tok : string) (d : db) : db :=
  {| chat_rooms := chat_rooms d;
     users := users d;
     push_tokens :=
       {| rows := rows (push_tokens d)
                  ++ [ {| push_tokens_id := next_rowid push_tokens_id (push_tokens d);
                          push_tokens_user_id := uid;
                          push_tokens_token := tok |} ];
          seq := next_rowid push_tokens_id (push_tokens d) |};
     messages := messages d |}.

(** The database with a user stored under the next id. *)
Definition user_stored (name pw : string) (d : db) : db :=
  {| chat_rooms := chat_rooms d;
     users :=
       {| rows := rows (users d)
                  ++ [ {| users_id := next_rowid users_id (users d);
                          users_username := name;
                          users_password := pw |} ];
          seq := next_rowid users_id (users d) |};
     push_tokens := push_tokens d;
     messages := messages d |}.

(** The order in which [get_messages] lists two rows: timestamps do not
    decrease, and rows with the same timestamp come in id order. *)
Definition listed_before (a b : messages_row) : Prop :=
  (messages_timestamp a <=? messages_timestamp b)%string = true
  /\ (messages_timestamp a = messages_timestamp b -> messages_id a < messages_id b).

(** What it is to call the provider once on each message of a list, one
    call after the other, each on the provider as the call before left
    it: the results in order, and the provider after the last call. *)
Fixpoint send_each {P : Type} (send : messaging.Message -> P -> send_result * P)
         (ms : list messaging.Message) (p : P) : list send_result * P :=
  match ms with
  | [] => ([], p)
  | m :: ms' =>
      let '(result, p) := send m p in
      let '(results, p) := send_each send ms' p in
      (result :: results, p)
  end.

(** The shape of one entry of the [notifications] list for a token. *)
Definition outcome_for (tok : string) (entry : json) : Prop :=
  (exists response, entry = JObj [("token", JStr tok); ("response", JStr response)])
  \/ (exists e, entry = JObj [("token", JStr tok); ("error", JStr e)]).

(** The entry that records, for a token, what the provider did with the
    message sent to it. *)
Definition recorded (tok : string) (result : send_result) : json :=
  match result with
  | Returned response => JObj [("token", JStr tok); ("response", JStr response)]
  | Raised e => JObj [("token", JStr tok); ("error", JStr e)]
  end.

(** The entries for a list of tokens and the results of their sends. *)
Definition recorded_all (tokens : list string) (results : list send_result)
  : list json :=
  map (fun '(tok, result) => recorded tok result) (combine tokens results).

(** The table has an id left for one more row. *)
Definition has_rowid_left {R : Type} (rowid : R -> Z) (t : table R) : Prop :=
  next_rowid rowid t <= max_int64.

(** [n] runs of [create_db] after the first one. *)
Definition rerun_create_db (n : nat) (d : db) : db :=
  Nat.iter n (fun d => create_db (on_disk d)) d.

Definition usernames (d : db) : list string :=
  map users_username (rows (users d)).

(** The rowids of a table are 1, 2, ..., n in scan order and its
    [sqlite_sequence] counter is n. *)
Definition consecutive_rowids {R : Type} (rowid : R -> Z) (t : table R) : Prop :=
  map rowid (rows t) = map Z.of_nat (List.seq 1 (List.length (rows t)))
  /\ seq t = Z.of_nat (List.length (rows t)).

(** A room with this id can be looked up. *)
Definition room_exists (d : db) (id : Z) : Prop :=
  exists room, select_room d id = Some room.

Record db_inv (d : db) : Prop :=
  { inv_rooms : chat_rooms d = chat_rooms (create_db no_file);
    inv_users_rowids : consecutive_rowids users_id (users d);
    inv_push_tokens_rowids : consecutive_rowids push_tokens_id (push_tokens d);
    inv_messages_rowids : consecutive_rowids messages_id (messages d);
    inv_usernames : NoDup (usernames d);
    inv_message_rooms :
      Forall (fun m => room_exists d (messages_room_id m)) (rows (messages d)) }.

(** The constraints declared on [chat_rooms]: rows in strictly increasing
    id order (PRIMARY KEY) and no name twice (UNIQUE). *)
Definition rooms_well_keyed (t : table chat_rooms_row) : Prop :=
  rowid_ordered chat_rooms_id (rows t)
  /\ NoDup (map chat_rooms_name (rows t)).

(** [after] holds the rows of [before], in place, and at most one more row
    behind them. *)
Definition grown_by_at_most_one {R : Type} (before after : table R) : Prop :=
  rows after = rows before \/ exists r, rows after = rows before ++ [r].

(** One entry of the room list of [get_chat_rooms]. *)
Definition format_room (r : chat_rooms_row) : json :=
  JObj [("room_id", JInt (chat_rooms_id r)); ("name", JStr (chat_rooms_name r))].

(** The body of a successful login. *)
Definition login_successful (id : Z) (name : string) : json :=
  unified_response 0 "Login successful"
                   (JObj [("user_id", JInt id); ("username", JStr name)]).

(** ** Concrete instances *)

Module Examples.


(** A provider that accepts every second send, counting the calls. *)
Definition flaky_send (m : messaging.Message) (n : nat) : send_result * nat :=
  (if Nat.even n then Returned "ok" else Raised "UNREGISTERED", S n).

(** A provider that keeps the messages it is given, the latest first, and
    rejects the token "t2". *)
Definition recording_send (m : messaging.Message) (inbox : list messaging.Message)
  : send_result * list messaging.Message :=
  (if (messaging.token m =? "t2")%string
   then Raised "UNREGISTERED" else Returned "projects/chat/messages/1",
   m :: inbox).

Definition sha (s : string) : string := ("sha256:" ++ s)%string.

Definition fresh : db := create_db no_file.

Definition alice := {| username := "alice"; password := "secret" |}.

Definition general := {| chat_rooms_id := 1; chat_rooms_name := "General" |}.

Definition hi (room : Z) : MessageModel :=
  {| sender_id := 1; sender_name := "alice"; message := "hi"; room_id := room |}.

(** The same message from a sender id that does not fit 64 bits. *)
Definition hi_from_2_63 : MessageModel :=
  {| sender_id := 2 ^ 63; sender_name := "alice"; message := "hi"; room_id := 1 |}.

(** Alice registered, two device tokens stored, hers first. *)
Definition two_tokens : db :=
  let d := snd (register sha alice fresh) in
  let d := snd (submit_push_token {| user_id := 1; token := "t1" |} d) in
  snd (submit_push_token {| user_id := 2; token := "t2" |} d).

(** Three messages in room 1: the clock was set back before the second
    one, and the third falls in the same second as the first. *)
Definition three_messages : db :=
  let post now d :=
    database (send_message_and_notify flaky_send (hi 1) now d 0%nat) in
  post "2024-11-19 10:00:07"
       (post "2024-11-19 10:00:05"
             (post "2024-11-19 10:00:07" two_tokens)).

(** A database file in which room 1 was created under another name
    before the server was ever started. *)
Definition lobby_file : db_file :=
  {| file_chat_rooms :=
       Some {| rows := [ {| chat_rooms_id := 1; chat_rooms_name := "Lobby" |} ];
               seq := 1 |};
     file_users := None; file_push_tokens := None; file_messages := None |}.

(** A database file that has a room called General under id 7. *)
Definition general_at_7_file : db_file :=
  {| file_chat_rooms :=
       Some {| rows := [ {| chat_rooms_id := 7; chat_rooms_name := "General" |} ];
               seq := 7 |};
     file_users := None; file_push_tokens := None; file_messages := None |}.


End Examples.
(** * Properties *)

(** ** Lists *)

Lemma StronglySorted_snoc {A : Type} (R : A -> A -> Prop) (l : list A) (x : A) :
  StronglySorted R l -> Forall (fun a => R a x) l -> StronglySorted R (l ++ [x]).
Proof.
  induction 1 as [|a l Hl IH Ha]; intros Hx; simpl.
  - repeat constructor.
  - inversion Hx; subst. constructor; [now apply IH|].
    apply Forall_app; split; [assumption|]. now repeat constructor.
Qed.

Lemma StronglySorted_filter {A : Type} (R : A -> A -> Prop) (f : A -> bool) (l : list A) :
  StronglySorted R l -> StronglySorted R (filter f l).
Proof.
  induction 1 as [|a l Hl IH Ha]; simpl; [constructor|].
  destruct (f a); [|assumption].
  constructor; [assumption|].
  rewrite Forall_forall in *. intros x Hx. apply filter_In in Hx. now apply Ha.
Qed.

Lemma StronglySorted_nth_error {A : Type} (R : A -> A -> Prop) (l : list A) :
  StronglySorted R l ->
  forall (i j : nat) (a b : A),
    (i < j)%nat -> nth_error l i = Some a -> nth_error l j = Some b -> R a b.
Proof.
  induction 1 as [|x l Hl IH Hx]; intros i j a b Hij Ha Hb.
  - destruct i; discriminate.
  - destruct j as [|j]; [lia|]. simpl in Hb.
    destruct i as [|i]; simpl in Ha.
    + injection Ha as <-. rewrite Forall_forall in Hx.
      apply Hx. eapply nth_error_In; eassumption.
    + apply (IH i j); [lia|assumption..].
Qed.

Lemma find_none_iff {A : Type} (f : A -> bool) (l : list A) :
  find f l = None <-> (forall x, In x l -> f x = false).
Proof.
  split; [apply find_none|].
  induction l as [|a l IH]; simpl; intros H; [reflexivity|].
  rewrite (H a) by now left. apply IH. intros x Hx. apply H. now right.
Qed.

Lemma max_rowid_bound {R : Type} (rowid : R -> Z) (l : list R) :
  Forall (fun r => rowid r <= max_rowid rowid l) l.
Proof.
  induction l as [|a l IH]; simpl; constructor; [lia|].
  eapply Forall_impl; [|exact IH]. simpl. intros; lia.
Qed.

(** ** The sorter *)

Section Sorter.

Variable R : Type.
Variable le : R -> R -> bool.
Hypothesis le_total : forall a b, le a b = true \/ le b a = true.
Hypothesis le_trans : forall a b c, le a b = true -> le b c = true -> le a c = true.

(** [scanned a b]: row [a] comes before row [b] in the scan. *)
Variable scanned : R -> R -> Prop.

Lemma sorter_insert_perm (r : R) (l : list R) :
  Permutation (sorter_insert le r l) (r :: l).
Proof.
  induction l as [|x l IH]; simpl; [reflexivity|].
  destruct (le r x); [reflexivity|].
  rewrite IH. apply perm_swap.
Qed.

Lemma order_by_perm (scan : list R) : Permutation (order_by le scan) scan.
Proof.
  induction scan as [|x l IH]; simpl; [reflexivity|].
  rewrite sorter_insert_perm. now constructor.
Qed.

Lemma sorter_insert_sorted (x : R) (s : list R) :
  StronglySorted (sorted_stably le scanned) s ->
  Forall (scanned x) s ->
  StronglySorted (sorted_stably le scanned) (sorter_insert le x s).
Proof.
  induction 1 as [|y s Hs IH Hy]; intros Hx; simpl.
  - repeat constructor.
  - inversion Hx as [|? ? Hxy Hxs]; subst.
    destruct (le x y) eqn:E.
    + constructor; [now constructor|].
      constructor; [split; auto|].
      rewrite Forall_forall in *. intros z Hz. split.
      * apply le_trans with y; [assumption|]. now apply Hy.
      * intros _. now apply Hxs.
    + constructor; [now apply IH|].
      rewrite Forall_forall in *. intros z Hz.
      apply (Permutation_in _ (sorter_insert_perm x s)) in Hz.
      destruct Hz as [<-|Hz]; [|now apply Hy].
      split; [destruct (le_total y x); congruence|congruence].
Qed.

Lemma order_by_sorted (scan : list R) :
  StronglySorted scanned scan -> StronglySorted (sorted_stably le scanned) (order_by le scan).
Proof.
  induction 1 as [|x l Hl IH Hx]; simpl; [constructor|].
  apply sorter_insert_sorted; [assumption|].
  rewrite Forall_forall in *. intros z Hz. apply Hx.
  eapply Permutation_in; [apply order_by_perm|eassumption].
Qed.

End Sorter.

(** ** Timestamps: text compared byte by byte *)

Lemma string_leb_iff (a b : string) :
  (a <=? b)%string = true <-> a = b \/ String_as_OT.lt a b.
Proof.
  unfold String.leb.
  destruct (String.compare a b) eqn:E.
  - apply String_as_OT.cmp_eq in E. tauto.
  - apply String_as_OT.cmp_lt in E. tauto.
  - split; [discriminate|]. intros [->|H].
    + assert (String.compare b b = Eq) by now apply String_as_OT.cmp_eq.
      congruence.
    + apply String_as_OT.cmp_lt in H. unfold String_as_OT.cmp in H. congruence.
Qed.

Lemma string_leb_refl (a : string) : (a <=? a)%string = true.
Proof. apply string_leb_iff. now left. Qed.

Lemma string_leb_trans (a b c : string) :
  (a <=? b)%string = true -> (b <=? c)%string = true -> (a <=? c)%string = true.
Proof.
  rewrite !string_leb_iff. intros [->|Hab] [->|Hbc]; auto.
  right. eapply String_as_OT.lt_trans; eassumption.
Qed.

Lemma timestamp_le_total (a b : messages_row) :
  timestamp_le a b = true \/ timestamp_le b a = true.
Proof. apply String.leb_total. Qed.

Lemma timestamp_le_trans (a b c : messages_row) :
  timestamp_le a b = true -> timestamp_le b c = true -> timestamp_le a c = true.
Proof. apply string_leb_trans. Qed.

(** ** More on the sorter *)



Lemma StronglySorted_any {A : Type} (l : list A) :
  StronglySorted (fun _ _ => True) l.
Proof.
  induction l as [|a l IH]; constructor; [assumption|].
  apply Forall_forall. trivial.
Qed.

Lemma StronglySorted_weaken {A : Type} (R1 R2 : A -> A -> Prop) (l : list A) :
  (forall a b, R1 a b -> R2 a b) -> StronglySorted R1 l -> StronglySorted R2 l.
Proof.
  intros H. induction 1 as [|a l Hl IH Ha]; constructor; [assumption|].
  eapply Forall_impl; [|exact Ha]. apply H.
Qed.

(** ** SQLite integers *)

Lemma fits_int64_iff (n : Z) :
  fits_int64 n = true <-> min_int64 <= n <= max_int64.
Proof.
  unfold fits_int64. rewrite andb_true_iff, !Z.leb_le. tauto.
Qed.

Lemma bind_ints_fit {A : Type} (params : list Z) (run : raising A) :
  forallb fits_int64 params = true -> bind_ints params run = run.
Proof. unfold bind_ints. now intros ->. Qed.

Lemma bind_ints_overflow {A : Type} (params : list Z) (run : raising A) :
  forallb fits_int64 params = false -> bind_ints params run = Raises OverflowError.
Proof. unfold bind_ints. now intros ->. Qed.

Lemma execute_select_room_fits (d : db) (id : Z) :
  fits_int64 id = true -> execute_select_room d id = Returns (select_room d id).
Proof.
  intros H. unfold execute_select_room. apply bind_ints_fit. simpl. now rewrite H.
Qed.

Lemma execute_select_room_overflow (d : db) (id : Z) :
  fits_int64 id = false -> execute_select_room d id = Raises OverflowError.
Proof.
  intros H. unfold execute_select_room. apply bind_ints_overflow. simpl. now rewrite H.
Qed.

Lemma execute_select_messages_fits (d : db) (id : Z) :
  fits_int64 id = true ->
  execute_select_messages d id = Returns (select_messages d id).
Proof.
  intros H. unfold execute_select_messages. apply bind_ints_fit. simpl. now rewrite H.
Qed.

(** ** Rowids handed out by AUTOINCREMENT *)

Lemma max_rowid_le {R : Type} (rowid : R -> Z) (l : list R) (b : Z) :
  0 <= b -> (forall r, In r l -> rowid r <= b) -> max_rowid rowid l <= b.
Proof.
  intros Hb. induction l as [|a l IH]; simpl; intros H; [assumption|].
  apply Z.max_lub; [apply H; now left|]. apply IH. intros r Hr. apply H. now right.
Qed.

Lemma next_rowid_above {R : Type} (rowid : R -> Z) (t : table R) :
  seq t < next_rowid rowid t
  /\ forall x, In x (rows t) -> rowid x < next_rowid rowid t.
Proof.
  unfold next_rowid.
  pose proof (Z.le_max_l (max_rowid rowid (rows t)) (seq t)) as Hl.
  pose proof (Z.le_max_r (max_rowid rowid (rows t)) (seq t)) as Hr.
  split; [lia|].
  intros x Hx. pose proof (max_rowid_bound rowid (rows t)) as Hb.
  rewrite Forall_forall in Hb. specialize (Hb x Hx). simpl in Hb. lia.
Qed.

Lemma insert_auto_left {R : Type} (rowid : R -> Z) (mk : Z -> R) (t : table R) :
  has_rowid_left rowid t ->
  insert_auto rowid mk t =
  Returns {| rows := rows t ++ [mk (next_rowid rowid t)]; seq := next_rowid rowid t |}.
Proof.
  unfold has_rowid_left, insert_auto. intros H.
  apply Z.leb_le in H. now rewrite H.
Qed.

Lemma insert_auto_full {R : Type} (rowid : R -> Z) (mk : Z -> R) (t : table R) :
  ~ has_rowid_left rowid t -> insert_auto rowid mk t = Raises OperationalError.
Proof.
  unfold has_rowid_left, insert_auto. intros H.
  destruct (Z.leb_spec (next_rowid rowid t) max_int64); [contradiction|reflexivity].
Qed.

Lemma insert_auto_cases {R : Type} (rowid : R -> Z) (mk : Z -> R) (t : table R) :
  (has_rowid_left rowid t
   /\ insert_auto rowid mk t =
      Returns {| rows := rows t ++ [mk (next_rowid rowid t)];
                 seq := next_rowid rowid t |})
  \/ (~ has_rowid_left rowid t /\ insert_auto rowid mk t = Raises OperationalError).
Proof.
  destruct (Z.le_gt_cases (next_rowid rowid t) max_int64) as [H|H].
  - left. split; [exact H|]. now apply insert_auto_left.
  - right. assert (Hfull : ~ has_rowid_left rowid t) by (unfold has_rowid_left; lia).
    split; [exact Hfull|]. now apply insert_auto_full.
Qed.

Lemma appended_ordered {R : Type} (rowid : R -> Z) (mk : Z -> R) (t : table R) :
  (forall id, rowid (mk id) = id) ->
  rowid_ordered rowid (rows t) ->
  rowid_ordered rowid (rows t ++ [mk (next_rowid rowid t)]).
Proof.
  intros Hmk Hsorted. apply StronglySorted_snoc; [assumption|].
  rewrite Hmk. apply Forall_forall. apply next_rowid_above.
Qed.

Lemma consecutive_next_rowid {R : Type} (rowid : R -> Z) (t : table R) :
  consecutive_rowids rowid t ->
  next_rowid rowid t = Z.of_nat (S (List.length (rows t))).
Proof.
  intros [Hids Hseq]. unfold next_rowid. rewrite Hseq.
  assert (Hmax : max_rowid rowid (rows t) <= Z.of_nat (List.length (rows t))).
  { apply max_rowid_le; [lia|]. intros r Hr.
    apply (in_map rowid) in Hr. rewrite Hids in Hr.
    apply in_map_iff in Hr. destruct Hr as (k & <- & Hk).
    apply in_seq in Hk. lia. }
  lia.
Qed.

Lemma appended_consecutive {R : Type} (rowid : R -> Z) (mk : Z -> R) (t : table R) :
  (forall id, rowid (mk id) = id) ->
  consecutive_rowids rowid t ->
  consecutive_rowids rowid
    {| rows := rows t ++ [mk (next_rowid rowid t)]; seq := next_rowid rowid t |}.
Proof.
  intros Hmk Ht. pose proof (consecutive_next_rowid rowid t Ht) as Hnext.
  destruct Ht as [Hids Hseq]. unfold consecutive_rowids. cbn [rows seq].
  rewrite Hnext, length_app, Nat.add_1_r. split; [|reflexivity].
  rewrite map_app, seq_S, map_app, Hids. cbn [map]. now rewrite Hmk.
Qed.

Lemma consecutive_rowids_NoDup {R : Type} (rowid : R -> Z) (t : table R) :
  consecutive_rowids rowid t -> NoDup (map rowid (rows t)).
Proof.
  intros [Hids _]. rewrite Hids.
  apply Finite.Injective_map_NoDup; [|apply seq_NoDup].
  intros a b. apply Nat2Z.inj.
Qed.

Lemma NoDup_snoc {A : Type} (l : list A) (x : A) :
  NoDup l -> ~ In x l -> NoDup (l ++ [x]).
Proof.
  intros Hl Hx. apply NoDup_app; [assumption|repeat constructor; intros []|].
  intros a Ha [<-|[]]. contradiction.
Qed.

Lemma NoDup_map_injective {A B : Type} (f : A -> B) (l : list A) (a b : A) :
  NoDup (map f l) -> In a l -> In b l -> f a = f b -> a = b.
Proof.
  induction l as [|x l IH]; simpl; intros Hnd Ha Hb Heq; [contradiction|].
  inversion Hnd as [|? ? Hx Hl]; subst.
  destruct Ha as [->|Ha], Hb as [->|Hb]; auto.
  - exfalso. apply Hx. rewrite Heq. now apply in_map.
  - exfalso. apply Hx. rewrite <- Heq. now apply in_map.
Qed.


(** ** Lookups *)

Lemma select_room_some (d : db) (id : Z) (room : chat_rooms_row) :
  select_room d id = Some room ->
  In room (rows (chat_rooms d)) /\ chat_rooms_id room = id.
Proof.
  intros H. apply find_some in H. destruct H as [Hin Hid].
  split; [assumption|]. now apply Z.eqb_eq.
Qed.

Lemma select_room_none (d : db) (id : Z) :
  (forall room, In room (rows (chat_rooms d)) -> chat_rooms_id room <> id) ->
  select_room d id = None.
Proof.
  intros H. apply find_none_iff. intros x Hx. apply Z.eqb_neq. now apply H.
Qed.

Lemma select_push_token_none (d : db) (tok : string) :
  select_push_token d tok = None -> ~ In tok (select_tokens d).
Proof.
  intros H Hin. apply in_map_iff in Hin. destruct Hin as (t & <- & Ht).
  apply (find_none _ _ H) in Ht. simpl in Ht.
  rewrite String.eqb_refl in Ht. discriminate.
Qed.

Lemma select_user_none (d : db) (name : string) :
  select_user d name = None <-> ~ In name (usernames d).
Proof.
  unfold select_user, usernames. rewrite find_none_iff. split.
  - intros H Hin. apply in_map_iff in Hin. destruct Hin as (u & <- & Hu).
    apply H in Hu. rewrite String.eqb_refl in Hu. discriminate.
  - intros H u Hu. apply String.eqb_neq. intros <-. apply H. now apply in_map.
Qed.

Lemma select_user_some (d : db) (name : string) (u : users_row) :
  select_user d name = Some u -> In u (rows (users d)) /\ users_username u = name.
Proof.
  intros H. apply find_some in H. destruct H as [Hin Hname].
  split; [assumption|]. now apply String.eqb_eq.
Qed.

Lemma select_messages_in (d : db) (id : Z) (m : messages_row) :
  In m (select_messages d id) <->
  In m (rows (messages d)) /\ messages_room_id m = id.
Proof.
  unfold select_messages. split.
  - intros H. apply (Permutation_in _ (order_by_perm _ _ _)) in H.
    apply filter_In in H. now rewrite Z.eqb_eq in H.
  - intros H. apply (Permutation_in _ (Permutation_sym (order_by_perm _ _ _))).
    apply filter_In. now rewrite Z.eqb_eq.
Qed.

Lemma select_room_fixed (d : db) (id : Z) :
  chat_rooms d = chat_rooms (create_db no_file) ->
  select_room d id = find (fun r => chat_rooms_id r =? id) seeded_rooms.
Proof. intros H. unfold select_room. now rewrite H. Qed.

Lemma seeded_room_found (id : Z) :
  (exists room, find (fun r => chat_rooms_id r =? id) seeded_rooms = Some room)
  <-> In id [1; 2; 3].
Proof.
  split.
  - intros [room H]. apply find_some in H. destruct H as [Hin Hid].
    apply Z.eqb_eq in Hid. subst id.
    destruct Hin as [<-|[<-|[<-|[]]]]; simpl; auto.
  - intros [<-|[<-|[<-|[]]]]; eexists; reflexivity.
Qed.

Lemma seeded_ids_fit (id : Z) : In id [1; 2; 3] -> fits_int64 id = true.
Proof. intros [<-|[<-|[<-|[]]]]; reflexivity. Qed.

(** ** create_db *)

Lemma insert_by_rowid_in {R : Type} (rowid : R -> Z) (r x : R) (l : list R) :
  In x (insert_by_rowid rowid r l) <-> x = r \/ In x l.
Proof.
  induction l as [|a l IH]; simpl; [intuition congruence|].
  destruct (rowid r <? rowid a); simpl; [intuition congruence|].
  rewrite IH. intuition congruence.
Qed.

Lemma insert_by_rowid_perm {R : Type} (rowid : R -> Z) (r : R) (l : list R) :
  Permutation (insert_by_rowid rowid r l) (r :: l).
Proof.
  induction l as [|a l IH]; simpl; [reflexivity|].
  destruct (rowid r <? rowid a); [reflexivity|].
  rewrite IH. apply perm_swap.
Qed.

Lemma insert_by_rowid_ordered {R : Type} (rowid : R -> Z) (r : R) (l : list R) :
  rowid_ordered rowid l ->
  (forall x, In x l -> rowid x <> rowid r) ->
  rowid_ordered rowid (insert_by_rowid rowid r l).
Proof.
  unfold rowid_ordered.
  induction 1 as [|a l Hl IH Ha]; intros Hfree; simpl.
  - repeat constructor.
  - destruct (Z.ltb_spec (rowid r) (rowid a)) as [Hlt|Hge].
    + constructor; [now constructor|].
      constructor; [assumption|].
      eapply Forall_impl; [|exact Ha]. simpl. intros; lia.
    + constructor.
      * apply IH. intros x Hx. apply Hfree. now right.
      * apply Forall_forall. intros x Hx. apply insert_by_rowid_in in Hx.
        destruct Hx as [->|Hx].
        -- assert (rowid a <> rowid r) by (apply Hfree; now left). lia.
        -- rewrite Forall_forall in Ha. now apply Ha.
Qed.

Lemma chat_rooms_conflict_false (s : chat_rooms_row) (t : table chat_rooms_row) :
  chat_rooms_conflict s t = false <->
  (forall x, In x (rows t) ->
             chat_rooms_id x <> chat_rooms_id s /\ chat_rooms_name x <> chat_rooms_name s).
Proof.
  unfold chat_rooms_conflict. split.
  - intros H x Hx.
    destruct (Z.eqb_spec (chat_rooms_id x) (chat_rooms_id s)) as [E1|E1];
      destruct (String.eqb_spec (chat_rooms_name x) (chat_rooms_name s)) as [E2|E2];
      try (split; assumption); exfalso;
      assert (Hex : existsb (fun x => (chat_rooms_id x =? chat_rooms_id s)
                              || (chat_rooms_name x =? chat_rooms_name s)%string)
                            (rows t) = true)
        by (apply existsb_exists; exists x; split; [assumption|];
            rewrite ?E1, ?E2, ?Z.eqb_refl, ?String.eqb_refl, ?orb_true_r; reflexivity);
      congruence.
  - intros H. destruct (existsb _ (rows t)) eqn:E; [|reflexivity].
    apply existsb_exists in E. destruct E as (x & Hx & Hc).
    destruct (H x Hx) as [H1 H2].
    apply Z.eqb_neq in H1. apply String.eqb_neq in H2.
    rewrite H1, H2 in Hc. discriminate.
Qed.

Lemma insert_or_ignore_keeps (s x : chat_rooms_row) (t : table chat_rooms_row) :
  In x (rows t) -> In x (rows (insert_or_ignore_chat_room s t)).
Proof.
  intros Hx. unfold insert_or_ignore_chat_room. cbn [rows].
  destruct (chat_rooms_conflict s t); [assumption|].
  apply insert_by_rowid_in. now right.
Qed.

Lemma insert_or_ignore_origin (s x : chat_rooms_row) (t : table chat_rooms_row) :
  In x (rows (insert_or_ignore_chat_room s t)) ->
  In x (rows t) \/ (x = s /\ chat_rooms_conflict s t = false).
Proof.
  unfold insert_or_ignore_chat_room. cbn [rows].
  destruct (chat_rooms_conflict s t); [auto|].
  intros Hx. apply insert_by_rowid_in in Hx. destruct Hx; auto.
Qed.

Lemma insert_or_ignore_conflict_mono (s s' : chat_rooms_row) (t : table chat_rooms_row) :
  chat_rooms_conflict s t = true ->
  chat_rooms_conflict s (insert_or_ignore_chat_room s' t) = true.
Proof.
  unfold chat_rooms_conflict at 1. intros H.
  apply existsb_exists in H. destruct H as (x & Hx & Hc).
  apply existsb_exists. exists x. split; [|assumption].
  now apply insert_or_ignore_keeps.
Qed.

Lemma insert_or_ignore_conflict (s : chat_rooms_row) (t : table chat_rooms_row) :
  chat_rooms_conflict s (insert_or_ignore_chat_room s t) = true.
Proof.
  destruct (chat_rooms_conflict s t) eqn:E.
  - now apply insert_or_ignore_conflict_mono.
  - apply existsb_exists. exists s. split.
    + unfold insert_or_ignore_chat_room. cbn [rows]. rewrite E.
      apply insert_by_rowid_in. now left.
    + now rewrite Z.eqb_refl.
Qed.

Lemma insert_or_ignore_seq (s : chat_rooms_row) (t : table chat_rooms_row) :
  seq t <= seq (insert_or_ignore_chat_room s t)
  /\ chat_rooms_id s <= seq (insert_or_ignore_chat_room s t).
Proof. unfold insert_or_ignore_chat_room. cbn [seq]. lia. Qed.

Lemma executemany_keeps (seeds : list chat_rooms_row) (x : chat_rooms_row)
      (t : table chat_rooms_row) :
  In x (rows t) -> In x (rows (executemany insert_or_ignore_chat_room seeds t)).
Proof.
  revert t. induction seeds as [|s seeds IH]; intros t Hx; simpl; [assumption|].
  apply IH. now apply insert_or_ignore_keeps.
Qed.

Lemma executemany_conflict_mono (seeds : list chat_rooms_row) (s : chat_rooms_row)
      (t : table chat_rooms_row) :
  chat_rooms_conflict s t = true ->
  chat_rooms_conflict s (executemany insert_or_ignore_chat_room seeds t) = true.
Proof.
  revert t. induction seeds as [|s' seeds IH]; intros t H; simpl; [assumption|].
  apply IH. now apply insert_or_ignore_conflict_mono.
Qed.

Lemma executemany_seq_mono (seeds : list chat_rooms_row) (t : table chat_rooms_row) :
  seq t <= seq (executemany insert_or_ignore_chat_room seeds t).
Proof.
  revert t. induction seeds as [|s seeds IH]; intros t; simpl; [lia|].
  specialize (IH (insert_or_ignore_chat_room s t)).
  pose proof (insert_or_ignore_seq s t). lia.
Qed.

(** Every row after a run was there before, or is a seed that found
    neither its id nor its name taken. *)
Lemma executemany_origin (seeds : list chat_rooms_row) (x : chat_rooms_row)
      (t : table chat_rooms_row) :
  In x (rows (executemany insert_or_ignore_chat_room seeds t)) ->
  In x (rows t) \/ (In x seeds /\ chat_rooms_conflict x t = false).
Proof.
  revert t. induction seeds as [|s seeds IH]; intros t Hx; simpl in Hx; [auto|].
  apply IH in Hx. destruct Hx as [Hx|[Hx Hfree]].
  - apply insert_or_ignore_origin in Hx. destruct Hx as [Hx|[-> Hfree]]; [auto|].
    right. split; [now left|assumption].
  - right. split; [now right|].
    destruct (chat_rooms_conflict x t) eqn:E; [|reflexivity].
    apply (insert_or_ignore_conflict_mono x s) in E. congruence.
Qed.

(** After a run every seed finds its id or its name taken, and the counter
    is at least its id. *)
Lemma executemany_all_settled (seeds : list chat_rooms_row) (t : table chat_rooms_row) :
  Forall (fun s =>
            chat_rooms_conflict s (executemany insert_or_ignore_chat_room seeds t) = true
            /\ chat_rooms_id s <= seq (executemany insert_or_ignore_chat_room seeds t))
         seeds.
Proof.
  revert t. induction seeds as [|s seeds IH]; intros t; simpl; constructor.
  - split.
    + apply executemany_conflict_mono. apply insert_or_ignore_conflict.
    + pose proof (executemany_seq_mono seeds (insert_or_ignore_chat_room s t)).
      pose proof (insert_or_ignore_seq s t). lia.
  - apply IH.
Qed.

Lemma executemany_ignored (seeds : list chat_rooms_row) (t : table chat_rooms_row) :
  Forall (fun s => chat_rooms_conflict s t = true /\ chat_rooms_id s <= seq t) seeds ->
  executemany insert_or_ignore_chat_room seeds t = t.
Proof.
  induction 1 as [|s seeds [Hs Hseq] Hseeds IH]; simpl; [reflexivity|].
  replace (insert_or_ignore_chat_room s t) with t; [exact IH|].
  unfold insert_or_ignore_chat_room. rewrite Hs, Z.max_l by assumption.
  now destruct t.
Qed.

Lemma create_db_again (f : db_file) : create_db (on_disk (create_db f)) = create_db f.
Proof.
  unfold create_db at 1, on_disk.
  cbn [file_chat_rooms file_users file_push_tokens file_messages
       create_table_if_not_exists].
  rewrite executemany_ignored; [now destruct (create_db f)|].
  exact (executemany_all_settled
           seeded_rooms (create_table_if_not_exists (file_chat_rooms f))).
Qed.

Lemma executemany_seed_present (seeds : list chat_rooms_row) (s : chat_rooms_row)
      (t : table chat_rooms_row) :
  ForallOrdPairs (fun a b => chat_rooms_id a <> chat_rooms_id b
                             /\ chat_rooms_name a <> chat_rooms_name b) seeds ->
  In s seeds ->
  chat_rooms_conflict s t = false ->
  In s (rows (executemany insert_or_ignore_chat_room seeds t)).
Proof.
  intros Hdistinct. revert t.
  induction Hdistinct as [|a seeds Ha Hseeds IH]; intros t Hin Hfree; [contradiction|].
  simpl. destruct Hin as [->|Hin].
  - apply executemany_keeps. unfold insert_or_ignore_chat_room. cbn [rows].
    rewrite Hfree. apply insert_by_rowid_in. now left.
  - apply IH; [assumption|].
    apply chat_rooms_conflict_false. intros x Hx.
    apply insert_or_ignore_origin in Hx. destruct Hx as [Hx|[-> _]].
    + now apply (proj1 (chat_rooms_conflict_false s t) Hfree).
    + rewrite Forall_forall in Ha. now apply Ha.
Qed.

Lemma seeded_rooms_distinct :
  ForallOrdPairs (fun a b => chat_rooms_id a <> chat_rooms_id b
                             /\ chat_rooms_name a <> chat_rooms_name b) seeded_rooms.
Proof.
  unfold seeded_rooms.
  repeat (constructor; [repeat (constructor; [split; discriminate|]); constructor|]).
  constructor.
Qed.

Lemma insert_or_ignore_well_keyed (s : chat_rooms_row) (t : table chat_rooms_row) :
  rooms_well_keyed t -> rooms_well_keyed (insert_or_ignore_chat_room s t).
Proof.
  intros [Hids Hnames]. unfold insert_or_ignore_chat_room, rooms_well_keyed.
  cbn [rows].
  destruct (chat_rooms_conflict s t) eqn:E; [now split|].
  pose proof (proj1 (chat_rooms_conflict_false s t) E) as Hfree.
  split.
  - apply insert_by_rowid_ordered; [assumption|].
    intros x Hx. now apply Hfree.
  - apply (Permutation_NoDup
             (l := map chat_rooms_name (s :: rows t))).
    + apply Permutation_map, Permutation_sym, insert_by_rowid_perm.
    + cbn [map]. constructor; [|assumption].
      intros Hin. apply in_map_iff in Hin. destruct Hin as (x & Hname & Hx).
      now apply (Hfree x Hx).
Qed.

Lemma create_db_fixed_rooms (d : db) :
  chat_rooms d = chat_rooms (create_db no_file) -> create_db (on_disk d) = d.
Proof.
  intros H. unfold create_db at 1, on_disk.
  cbn [file_chat_rooms file_users file_push_tokens file_messages
       create_table_if_not_exists].
  rewrite H.
  replace (executemany insert_or_ignore_chat_room seeded_rooms
                       (chat_rooms (create_db no_file)))
    with (chat_rooms (create_db no_file)) by reflexivity.
  rewrite <- H. now destruct d.
Qed.

Lemma create_db_keeps_messages (d : db) :
  messages (create_db (on_disk d)) = messages d.
Proof. reflexivity. Qed.

Lemma create_db_keeps_push_tokens (d : db) :
  push_tokens (create_db (on_disk d)) = push_tokens d.
Proof. reflexivity. Qed.

(** ** What the INSERT statements do *)

Lemma insert_message_cases (msg : MessageModel) (now : string) (d : db) :
  (fits_int64 (sender_id msg) = true /\ fits_int64 (room_id msg) = true
   /\ has_rowid_left messages_id (messages d)
   /\ insert_message msg now d = Returns (message_stored msg now d))
  \/ ((fits_int64 (sender_id msg) = false \/ fits_int64 (room_id msg) = false)
      /\ insert_message msg now d = Raises OverflowError)
  \/ (fits_int64 (sender_id msg) = true /\ fits_int64 (room_id msg) = true
      /\ ~ has_rowid_left messages_id (messages d)
      /\ insert_message msg now d = Raises OperationalError).
Proof.
  unfold insert_message, bind_ints. cbn [forallb].
  destruct (fits_int64 (sender_id msg)); [|right; left; split; auto].
  destruct (fits_int64 (room_id msg)); [|right; left; split; auto].
  cbn [andb].
  match goal with
  | |- context [insert_auto ?rowid ?mk ?t] =>
      destruct (insert_auto_cases rowid mk t) as [[Hleft ->]|[Hfull ->]]
  end.
  - left. repeat (split; [auto|]). reflexivity.
  - right. right. repeat (split; [auto|]). reflexivity.
Qed.

Lemma insert_push_token_cases (uid : Z) (tok : string) (d : db) :
  (fits_int64 uid = true /\ has_rowid_left push_tokens_id (push_tokens d)
   /\ insert_push_token uid tok d = Returns (token_stored uid tok d))
  \/ (fits_int64 uid = false /\ insert_push_token uid tok d = Raises OverflowError)
  \/ (fits_int64 uid = true /\ ~ has_rowid_left push_tokens_id (push_tokens d)
      /\ insert_push_token uid tok d = Raises OperationalError).
Proof.
  unfold insert_push_token, bind_ints. cbn [forallb].
  destruct (fits_int64 uid); [|right; left; split; auto].
  cbn [andb].
  match goal with
  | |- context [insert_auto ?rowid ?mk ?t] =>
      destruct (insert_auto_cases rowid mk t) as [[Hleft ->]|[Hfull ->]]
  end.
  - left. repeat (split; [auto|]). reflexivity.
  - right. right. repeat (split; [auto|]). reflexivity.
Qed.

Lemma insert_user_cases (name pw : string) (d : db) :
  (has_rowid_left users_id (users d)
   /\ insert_user name pw d = Returns (user_stored name pw d))
  \/ (~ has_rowid_left users_id (users d)
      /\ insert_user name pw d = Raises OperationalError).
Proof.
  unfold insert_user.
  match goal with
  | |- context [insert_auto ?rowid ?mk ?t] =>
      destruct (insert_auto_cases rowid mk t) as [[Hleft ->]|[Hfull ->]]
  end.
  - left. split; [assumption|reflexivity].
  - right. split; [assumption|reflexivity].
Qed.

(** ** The handlers, case by case *)

Section HandlerCases.

Variable P : Type.
Variable send : messaging.Message -> P -> send_result * P.
Variable sha256_hexdigest : string -> string.

Lemma register_cases (user : UserModel) (d : db) :
  ((exists u, select_user d (username user) = Some u)
   /\ register sha256_hexdigest user d =
      (Returns (unified_response 1 "Username already exists" JNull), d))
  \/ (select_user d (username user) = None
      /\ has_rowid_left users_id (users d)
      /\ register sha256_hexdigest user d =
         (Returns (unified_response 0 "User registered successfully" JNull),
          user_stored (username user) (sha256_hexdigest (password user)) d))
  \/ (select_user d (username user) = None
      /\ ~ has_rowid_left users_id (users d)
      /\ register sha256_hexdigest user d = (Raises OperationalError, d)).
Proof.
  unfold register, execute, hash_password. cbn [connect working close committed commit].
  destruct (select_user d (username user)) as [u|] eqn:E; [left; eauto|].
  right.
  destruct (insert_user_cases (username user) (sha256_hexdigest (password user)) d)
    as [[Hleft ->]|[Hfull ->]]; [left|right]; auto.
Qed.

Lemma submit_push_token_cases (push_token : PushTokenModel) (d : db) :
  ((exists t, select_push_token d (token push_token) = Some t)
   /\ submit_push_token push_token d =
      (Returns (unified_response 0 "Token already exists" JNull), d))
  \/ (select_push_token d (token push_token) = None
      /\ fits_int64 (user_id push_token) = true
      /\ has_rowid_left push_tokens_id (push_tokens d)
      /\ submit_push_token push_token d =
         (Returns (unified_response 0 "Token stored successfully" JNull),
          token_stored (user_id push_token) (token push_token) d))
  \/ (select_push_token d (token push_token) = None
      /\ fits_int64 (user_id push_token) = false
      /\ submit_push_token push_token d = (Raises OverflowError, d))
  \/ (select_push_token d (token push_token) = None
      /\ fits_int64 (user_id push_token) = true
      /\ ~ has_rowid_left push_tokens_id (push_tokens d)
      /\ submit_push_token push_token d = (Raises OperationalError, d)).
Proof.
  unfold submit_push_token, execute. cbn [connect working close committed commit].
  destruct (select_push_token d (token push_token)) as [t|] eqn:E; [left; eauto|].
  right.
  destruct (insert_push_token_cases (user_id push_token) (token push_token) d)
    as [(Hfit & Hleft & ->)|[(Hfit & ->)|(Hfit & Hfull & ->)]];
    [left|right; left|right; right]; auto.
Qed.

Lemma login_unchanged (user : UserModel) (d : db) :
  snd (login sha256_hexdigest user d) = d.
Proof.
  unfold login. simpl. destruct (select_user d (username user)); [|reflexivity].
  now destruct (negb _).
Qed.

Lemma login_body (user : UserModel) (d : db) :
  fst (login sha256_hexdigest user d) =
  match select_user d (username user) with
  | None => unified_response 1 "Invalid username or password" JNull
  | Some u =>
      if (users_password u =? sha256_hexdigest (password user))%string
      then login_successful (users_id u) (users_username u)
      else unified_response 1 "Invalid username or password" JNull
  end.
Proof.
  unfold login. cbn [connect working close committed]. unfold hash_password.
  destruct (select_user d (username user)) as [u|]; [|reflexivity].
  now destruct (users_password u =? sha256_hexdigest (password user))%string.
Qed.

(** *** The notification loop *)

Lemma send_each_length (ms : list messaging.Message) (p : P) :
  List.length (fst (send_each send ms p)) = List.length ms.
Proof.
  revert p. induction ms as [|m ms IH]; intros p; simpl; [reflexivity|].
  destruct (send m p) as [result p1]. specialize (IH p1).
  destruct (send_each send ms p1) as [results p2]. simpl in *. now rewrite IH.
Qed.

(** The loop hands each token's message to the provider, in order, and
    records for each token what the provider did. *)
Lemma notify_send_each (room : chat_rooms_row) (msg : MessageModel)
      (tokens : list string) (p : P) :
  let ms := map (message_notification room msg) tokens in
  notify send room msg tokens p =
  (recorded_all tokens (fst (send_each send ms p)), ms, snd (send_each send ms p)).
Proof.
  revert p. induction tokens as [|tok tokens IH]; intros p; simpl; [reflexivity|].
  destruct (send _ p) as [result p1]. specialize (IH p1). simpl in IH.
  rewrite IH.
  destruct (send_each send (map (message_notification room msg) tokens) p1)
    as [results p2].
  reflexivity.
Qed.

Lemma recorded_all_outcomes (tokens : list string) (results : list send_result) :
  List.length results = List.length tokens ->
  Forall2 outcome_for tokens (recorded_all tokens results).
Proof.
  revert results. induction tokens as [|tok tokens IH]; intros [|r results] Hlen;
    try discriminate; [constructor|].
  unfold recorded_all. cbn [combine map]. constructor.
  - destruct r; [left|right]; eexists; reflexivity.
  - apply IH. simpl in Hlen. lia.
Qed.

Lemma recorded_all_length (tokens : list string) (results : list send_result) :
  List.length results = List.length tokens ->
  List.length (recorded_all tokens results) = List.length tokens.
Proof.
  intros Hlen. unfold recorded_all. rewrite length_map, length_combine. lia.
Qed.

Lemma recorded_all_nth (tokens : list string) (results : list send_result)
      (i : nat) (tok : string) (result : send_result) :
  nth_error tokens i = Some tok ->
  nth_error results i = Some result ->
  nth_error (recorded_all tokens results) i = Some (recorded tok result).
Proof.
  revert results i. induction tokens as [|t tokens IH]; intros [|r results] [|i];
    simpl; try discriminate.
  - intros [= <-] [= <-]. reflexivity.
  - apply IH.
Qed.

(** *** Submitting a message *)

(** The run of a request that is accepted. *)
Lemma send_message_and_notify_accepted (msg : MessageModel) (now : string)
      (d : db) (p : P) (room : chat_rooms_row) :
  select_room d (room_id msg) = Some room ->
  fits_int64 (room_id msg) = true ->
  fits_int64 (sender_id msg) = true ->
  has_rowid_left messages_id (messages d) ->
  let ms := map (message_notification room msg) (select_tokens d) in
  send_message_and_notify send msg now d p =
  {| response :=
       Returns (unified_response 0 "Message sent and notifications processed"
                  (JObj [("notifications",
                          JList (recorded_all (select_tokens d)
                                              (fst (send_each send ms p))))]));
     database := message_stored msg now d;
     provider := snd (send_each send ms p);
     trace := Commit (message_stored msg now d) :: map Send ms |}.
Proof.
  intros Hroom Hrid Hsid Hleft ms.
  unfold send_message_and_notify, execute. cbn [connect working committed].
  rewrite (execute_select_room_fits d _ Hrid), Hroom.
  destruct (insert_message_cases msg now d)
    as [(_ & _ & _ & ->)|[([H|H] & _)|(_ & _ & H & _)]];
    [|congruence|congruence|contradiction].
  cbn [commit working committed close].
  change (select_tokens (message_stored msg now d)) with (select_tokens d).
  rewrite (notify_send_each room msg (select_tokens d) p). reflexivity.
Qed.

(** Every other run ends before anything is committed or sent. *)
Lemma send_message_and_notify_cases (msg : MessageModel) (now : string)
      (d : db) (p : P) :
  (exists room,
      select_room d (room_id msg) = Some room
      /\ fits_int64 (room_id msg) = true
      /\ fits_int64 (sender_id msg) = true
      /\ has_rowid_left messages_id (messages d))
  \/ (fits_int64 (room_id msg) = false
      /\ send_message_and_notify send msg now d p =
         ends_with (Raises OverflowError) (connect d) p)
  \/ (fits_int64 (room_id msg) = true
      /\ select_room d (room_id msg) = None
      /\ send_message_and_notify send msg now d p =
         ends_with (Returns (unified_response 1 "Invalid room ID" JNull)) (connect d) p)
  \/ (fits_int64 (room_id msg) = true
      /\ (exists room, select_room d (room_id msg) = Some room)
      /\ fits_int64 (sender_id msg) = false
      /\ send_message_and_notify send msg now d p =
         ends_with (Raises OverflowError) (connect d) p)
  \/ (fits_int64 (room_id msg) = true
      /\ (exists room, select_room d (room_id msg) = Some room)
      /\ fits_int64 (sender_id msg) = true
      /\ ~ has_rowid_left messages_id (messages d)
      /\ send_message_and_notify send msg now d p =
         ends_with (Raises OperationalError) (connect d) p).
Proof.
  unfold send_message_and_notify, execute. cbn [connect working committed].
  destruct (fits_int64 (room_id msg)) eqn:Hrid.
  - rewrite (execute_select_room_fits d _ Hrid).
    destruct (select_room d (room_id msg)) as [room|] eqn:Hroom.
    + destruct (insert_message_cases msg now d)
        as [(Hsid & _ & Hleft & _)|[([Hsid|H] & ->)|(Hsid & _ & Hfull & ->)]].
      * left. eauto.
      * right. right. right. left. eauto.
      * congruence.
      * right. right. right. right. eauto 6.
    + right. right. left. auto.
  - rewrite (execute_select_room_overflow d _ Hrid). right. left. auto.
Qed.

(** What the handler leaves on disk does not depend on the provider. *)
Lemma send_message_and_notify_database (msg : MessageModel) (now : string)
      (d : db) (p : P) :
  (database (send_message_and_notify send msg now d p) = message_stored msg now d
   /\ (exists room, select_room d (room_id msg) = Some room)
   /\ fits_int64 (room_id msg) = true
   /\ fits_int64 (sender_id msg) = true
   /\ has_rowid_left messages_id (messages d))
  \/ (database (send_message_and_notify send msg now d p) = d
      /\ provider (send_message_and_notify send msg now d p) = p
      /\ trace (send_message_and_notify send msg now d p) = []).
Proof.
  destruct (send_message_and_notify_cases msg now d p)
    as [(room & Hroom & Hrid & Hsid & Hleft)
       |[(_ & ->)|[(_ & _ & ->)|[(_ & _ & _ & ->)|(_ & _ & _ & _ & ->)]]]];
    try (right; repeat split; reflexivity).
  left. rewrite (send_message_and_notify_accepted msg now d p room) by assumption.
  cbn [database]. eauto 6.
Qed.

(** ** Stored data stays well formed *)

Lemma message_stored_db_ok (msg : MessageModel) (now : string) (d : db) :
  db_ok d -> db_ok (message_stored msg now d).
Proof.
  intros [Hm Ht]. split; [|assumption]. cbn [message_stored messages rows].
  exact (appended_ordered messages_id
           (fun id => {| messages_id := id;
                         messages_room_id := room_id msg;
                         messages_sender_id := sender_id msg;
                         messages_sender_name := sender_name msg;
                         messages_message := message msg;
                         messages_timestamp := now |})
           (messages d) (fun id => eq_refl) Hm).
Qed.

Lemma token_stored_db_ok (uid : Z) (tok : string) (d : db) :
  select_push_token d tok = None -> db_ok d -> db_ok (token_stored uid tok d).
Proof.
  intros E [Hm Ht]. split; [assumption|].
  unfold select_tokens. cbn [token_stored push_tokens rows]. rewrite map_app.
  apply NoDup_snoc; [assumption|]. now apply select_push_token_none.
Qed.

Lemma register_db_ok (user : UserModel) (d : db) :
  db_ok d -> db_ok (snd (register sha256_hexdigest user d)).
Proof.
  intros H.
  destruct (register_cases user d) as [(_ & ->)|[(_ & _ & ->)|(_ & _ & ->)]];
    exact H.
Qed.

Lemma submit_push_token_db_ok (push_token : PushTokenModel) (d : db) :
  db_ok d -> db_ok (snd (submit_push_token push_token d)).
Proof.
  intros H.
  destruct (submit_push_token_cases push_token d)
    as [(_ & ->)|[(E & _ & _ & ->)|[(_ & _ & ->)|(_ & _ & _ & ->)]]];
    try exact H.
  now apply token_stored_db_ok.
Qed.

Lemma send_message_and_notify_db_ok (msg : MessageModel) (now : string)
      (d : db) (p : P) :
  db_ok d -> db_ok (database (send_message_and_notify send msg now d p)).
Proof.
  intros H.
  destruct (send_message_and_notify_database msg now d p) as [(-> & _)|(-> & _)];
    [now apply message_stored_db_ok|exact H].
Qed.

Lemma serve_db_ok (req : request) (d : db) (p : P) :
  db_ok d -> db_ok (snd (fst (serve send sha256_hexdigest req d p))).
Proof.
  intros H.
  destruct req as [user|user|push_token|msg now| |rid|a b today]; simpl;
    try assumption.
  - pose proof (register_db_ok user d H) as H'.
    now destruct (register _ _ _).
  - pose proof (login_unchanged user d) as H'.
    destruct (login _ _ _); simpl in *. now subst.
  - pose proof (submit_push_token_db_ok push_token d H) as H'.
    now destruct (submit_push_token _ _).
  - now apply send_message_and_notify_db_ok.
Qed.

Lemma reachable_db_ok (d : db) : reachable send sha256_hexdigest d -> db_ok d.
Proof.
  induction 1 as [|d Hd IH|d req p Hd IH].
  - split; simpl; constructor.
  - destruct IH as [Hm Ht]. split.
    + now rewrite create_db_keeps_messages.
    + unfold select_tokens. now rewrite create_db_keeps_push_tokens.
  - now apply serve_db_ok.
Qed.

Lemma db_inv_first_start : db_inv (create_db no_file).
Proof.
  split; try (split; reflexivity); try reflexivity; constructor.
Qed.

Lemma user_stored_db_inv (name pw : string) (d : db) :
  select_user d name = None -> db_inv d -> db_inv (user_stored name pw d).
Proof.
  intros E [Hrooms Hu Ht Hm Hnames Hmr]. split; try assumption.
  - cbn [user_stored users].
    exact (appended_consecutive users_id
             (fun id => {| users_id := id; users_username := name;
                           users_password := pw |})
             (users d) (fun id => eq_refl) Hu).
  - unfold usernames. cbn [user_stored users rows]. rewrite map_app.
    apply NoDup_snoc; [assumption|]. now apply select_user_none.
Qed.

Lemma token_stored_db_inv (uid : Z) (tok : string) (d : db) :
  db_inv d -> db_inv (token_stored uid tok d).
Proof.
  intros [Hrooms Hu Ht Hm Hnames Hmr]. split; try assumption.
  cbn [token_stored push_tokens].
  exact (appended_consecutive push_tokens_id
           (fun id => {| push_tokens_id := id; push_tokens_user_id := uid;
                         push_tokens_token := tok |})
           (push_tokens d) (fun id => eq_refl) Ht).
Qed.

Lemma message_stored_db_inv (msg : MessageModel) (now : string) (d : db) :
  room_exists d (room_id msg) -> db_inv d -> db_inv (message_stored msg now d).
Proof.
  intros Hroom [Hrooms Hu Ht Hm Hnames Hmr]. split; try assumption.
  - cbn [message_stored messages].
    exact (appended_consecutive messages_id
             (fun id => {| messages_id := id;
                           messages_room_id := room_id msg;
                           messages_sender_id := sender_id msg;
                           messages_sender_name := sender_name msg;
                           messages_message := message msg;
                           messages_timestamp := now |})
             (messages d) (fun id => eq_refl) Hm).
  - cbn [message_stored messages rows].
    apply Forall_app. split; [exact Hmr|].
    constructor; [exact Hroom|constructor].
Qed.

Lemma serve_db_inv (req : request) (d : db) (p : P) :
  db_inv d -> db_inv (snd (fst (serve send sha256_hexdigest req d p))).
Proof.
  intros H.
  destruct req as [user|user|push_token|msg now| |rid|a b today]; simpl;
    try assumption.
  - destruct (register_cases user d) as [(_ & ->)|[(E & _ & ->)|(_ & _ & ->)]];
      try exact H.
    now apply user_stored_db_inv.
  - pose proof (login_unchanged user d) as H'.
    destruct (login _ _ _); simpl in *. now subst.
  - destruct (submit_push_token_cases push_token d)
      as [(_ & ->)|[(E & _ & _ & ->)|[(_ & _ & ->)|(_ & _ & _ & ->)]]];
      try exact H.
    now apply token_stored_db_inv.
  - destruct (send_message_and_notify_database msg now d p)
      as [(-> & Hroom & _)|(-> & _)]; [|exact H].
    now apply message_stored_db_inv.
Qed.

Lemma reachable_db_inv (d : db) : reachable send sha256_hexdigest d -> db_inv d.
Proof.
  induction 1 as [|d Hd IH|d req p Hd IH].
  - apply db_inv_first_start.
  - rewrite create_db_fixed_rooms; [assumption|apply IH].
  - now apply serve_db_inv.
Qed.

(** In a database the server can hold, a room that can be looked up has
    id 1, 2 or 3. *)
Lemma reachable_room_id (d : db) (id : Z) (room : chat_rooms_row) :
  reachable send sha256_hexdigest d ->
  select_room d id = Some room ->
  In id [1; 2; 3] /\ fits_int64 id = true.
Proof.
  intros Hd Hroom. apply reachable_db_inv in Hd. destruct Hd as [Hrooms _ _ _ _ _].
  rewrite (select_room_fixed d id Hrooms) in Hroom.
  assert (Hin : In id [1; 2; 3]) by (apply seeded_room_found; eauto).
  split; [exact Hin|]. now apply seeded_ids_fit.
Qed.

Lemma get_messages_found (d : db) (id : Z) (room : chat_rooms_row) :
  fits_int64 id = true ->
  select_room d id = Some room ->
  get_messages id d =
  Returns (unified_response 0
             ("Messages retrieved successfully from " ++ chat_rooms_name room)%string
             (JList (map format_message (select_messages d id)))).
Proof.
  intros Hfit Hroom. unfold get_messages.
  now rewrite (execute_select_room_fits d id Hfit), Hroom,
    (execute_select_messages_fits d id Hfit).
Qed.

End HandlerCases.

(** * The claims *)

Section Claims.

Variable P : Type.
Variable send : messaging.Message -> P -> send_result * P.
Variable sha256_hexdigest : string -> string.

(** ** Submitting a message *)

(** C1, as the code has it.  A submit request whose [room_id] is the id of
    no room never stores or sends anything: the handler commits nothing
    (empty trace), the provider is not called (it is left as it was) and
    the database, hence the [messages] table, is the one it found.  When
    [room_id] fits a signed 64-bit integer the answer is the "Invalid room
    ID" envelope with status 1; when it does not, the room lookup raises
    [OverflowError] and there is no envelope. *)
Theorem invalid_room_nothing_persisted
        (msg : MessageModel) (now : string) (d : db) (p : P) :
  (forall room, In room (rows (chat_rooms d)) -> chat_rooms_id room <> room_id msg) ->
  let r := send_message_and_notify send msg now d p in
  (fits_int64 (room_id msg) = true ->
   response r = Returns (unified_response 1 "Invalid room ID" JNull)
   /\ reply_status (response r) = Some 1)
  /\ (fits_int64 (room_id msg) = false -> response r = Raises OverflowError)
  /\ trace r = []
  /\ provider r = p
  /\ database r = d
  /\ messages (database r) = messages d.
Proof.
  intros Hroom r. subst r. apply select_room_none in Hroom.
  destruct (send_message_and_notify_cases P send msg now d p)
    as [(room & Hsome & _)
       |[(Hrid & ->)|[(Hrid & _ & ->)|[(_ & [room Hsome] & _)
                                      |(_ & [room Hsome] & _)]]]];
    try congruence; cbn [ends_with response trace provider database close connect
                         committed reply_status];
    repeat split; try reflexivity; congruence.
Qed.

(** C2.  Whenever a submit request reaches the loop, which is when it is
    answered with status 0: with N tokens stored the [notifications] list
    of the response has N entries; the provider is called once per token,
    in the order of enumeration, each call on the state the previous one
    left; and the i-th entry is the i-th token with the response the
    provider returned for it, or with the error text it raised.  A raised
    send changes nothing for the tokens after it. *)
Theorem one_outcome_per_token
        (msg : MessageModel) (now : string) (d : db) (p : P) :
  let r := send_message_and_notify send msg now d p in
  reply_status (response r) = Some 0 ->
  exists room notifications,
    select_room d (room_id msg) = Some room
    /\ response r =
       Returns (unified_response 0 "Message sent and notifications processed"
                  (JObj [("notifications", JList notifications)]))
    /\ List.length notifications = List.length (rows (push_tokens d))
    /\ let tokens := map push_tokens_token (rows (push_tokens d)) in
       let sent :=
         map (fun tok =>
                {| messaging.notification :=
                     {| messaging.title :=
                          (chat_rooms_name room ++ ": " ++ sender_name msg)%string;
                        messaging.body := message msg |};
                   messaging.token := tok |}) tokens in
       let results := fst (send_each send sent p) in
       List.length results = List.length (rows (push_tokens d))
       /\ provider r = snd (send_each send sent p)
       /\ (forall i tok result,
              nth_error tokens i = Some tok ->
              nth_error results i = Some result ->
              nth_error notifications i =
              Some match result with
                   | Returned response =>
                       JObj [("token", JStr tok); ("response", JStr response)]
                   | Raised e => JObj [("token", JStr tok); ("error", JStr e)]
                   end)
       /\ Forall2 outcome_for tokens notifications.
Proof.
  intros r Hstatus. subst r.
  destruct (send_message_and_notify_cases P send msg now d p)
    as [(room & Hroom & Hrid & Hsid & Hleft)
       |[(_ & E)|[(_ & _ & E)|[(_ & _ & _ & E)|(_ & _ & _ & _ & E)]]]];
    try (rewrite E in Hstatus; discriminate).
  clear Hstatus.
  rewrite (send_message_and_notify_accepted P send msg now d p room Hroom Hrid Hsid Hleft).
  cbn [response provider].
  set (tokens := map push_tokens_token (rows (push_tokens d))).
  set (sent := map (message_notification room msg) tokens).
  set (results := fst (send_each send sent p)).
  change (select_tokens d) with tokens. fold sent. fold results.
  assert (Hlen : List.length results = List.length tokens).
  { subst results sent. now rewrite send_each_length, length_map. }
  assert (Htokens : List.length tokens = List.length (rows (push_tokens d))).
  { unfold tokens. now rewrite length_map. }
  exists room, (recorded_all tokens results).
  split; [exact Hroom|]. split; [reflexivity|]. split.
  - now rewrite (recorded_all_length _ _ Hlen).
  - cbv zeta. change (map (fun tok => _) tokens) with sent. fold results.
    split; [congruence|]. split; [reflexivity|]. split.
    + intros i tok result Htok Hres.
      rewrite (recorded_all_nth tokens results i tok result Htok Hres).
      now destruct result.
    + now apply recorded_all_outcomes.
Qed.



(** C8.  When a submit request succeeds (its answer has status 0), the
    room was found, and the provider was called exactly on one message
    per row of [push_tokens], in row order: each message has the title
    "<room name>: <sender_name>", the request's message text as body and
    the row's token.  No row is left out: a token stored for the sender
    is sent to as well. *)
Theorem notification_content_and_destinations
        (msg : MessageModel) (now : string) (d : db) (p : P) :
  let r := send_message_and_notify send msg now d p in
  reply_status (response r) = Some 0 ->
  exists room,
    select_room d (room_id msg) = Some room
    /\ let notification_for t :=
         {| messaging.notification :=
              {| messaging.title :=
                   (chat_rooms_name room ++ ": " ++ sender_name msg)%string;
                 messaging.body := message msg |};
            messaging.token := push_tokens_token t |} in
       provider r = snd (send_each send (map notification_for (rows (push_tokens d))) p)
       /\ trace r = Commit (database r)
                           :: map (fun t => Send (notification_for t))
                                  (rows (push_tokens d))
       /\ (forall t, In t (rows (push_tokens d)) ->
                     push_tokens_user_id t = sender_id msg ->
                     In (Send (notification_for t)) (trace r)).
Proof.
  intros r Hstatus. subst r.
  destruct (send_message_and_notify_cases P send msg now d p)
    as [(room & Hroom & Hrid & Hsid & Hleft)
       |[(_ & E)|[(_ & _ & E)|[(_ & _ & _ & E)|(_ & _ & _ & _ & E)]]]];
    try (rewrite E in Hstatus; discriminate).
  exists room. split; [exact Hroom|]. intros notification_for.
  rewrite (send_message_and_notify_accepted P send msg now d p room Hroom Hrid Hsid Hleft).
  cbn [provider trace database].
  assert (Hsent : map (message_notification room msg) (select_tokens d)
                  = map notification_for (rows (push_tokens d))).
  { unfold select_tokens. now rewrite map_map. }
  rewrite Hsent, map_map. repeat (split; [reflexivity|]).
  intros t Ht _. right.
  apply (in_map (fun t => Send (notification_for t))) in Ht. exact Ht.
Qed.

(** ** Registering a push token *)






(** ** Reading a room's messages *)

(** C7. For an existing room, in a database the server can hold,
    [get_messages] answers with status 0 and lists exactly the rows of
    the room; of two listed rows the earlier one never has the larger
    timestamp, and when their timestamps are equal it has the smaller
    id, which is the one inserted first.  A room without messages gets
    the same envelope with an empty list. *)
Theorem get_messages_by_timestamp_then_id (d : db) (id : Z) (room : chat_rooms_row) :
  reachable send sha256_hexdigest d ->
  select_room d id = Some room ->
  exists listed,
    get_messages id d =
    Returns (unified_response 0
               ("Messages retrieved successfully from " ++ chat_rooms_name room)%string
               (JList (map format_message listed)))
    /\ Permutation listed
                   (filter (fun m => messages_room_id m =? id) (rows (messages d)))
    /\ (forall m, In m listed <->
                  In m (rows (messages d)) /\ messages_room_id m = id)
    /\ (forall i j a b,
           (i < j)%nat -> nth_error listed i = Some a -> nth_error listed j = Some b ->
           listed_before a b)
    /\ ((forall m, In m (rows (messages d)) -> messages_room_id m <> id) ->
        listed = []).
Proof.
  intros Hd Hroom. exists (select_messages d id).
  destruct (reachable_room_id P send sha256_hexdigest d id room Hd Hroom) as [_ Hfit].
  split; [now apply get_messages_found|]. split; [apply order_by_perm|].
  split; [apply select_messages_in|]. split.
  - intros i j a b Hij Ha Hb.
    apply reachable_db_ok in Hd. destruct Hd as [Hsorted _].
    pose proof (order_by_sorted _ timestamp_le timestamp_le_total timestamp_le_trans
                  (fun a b => messages_id a < messages_id b) _
                  (StronglySorted_filter _ (fun m => messages_room_id m =? id) _ Hsorted))
      as Hlisted.
    destruct (StronglySorted_nth_error _ _ Hlisted i j a b Hij Ha Hb) as [Hle Htie].
    split; [exact Hle|].
    intros Heq. apply Htie. unfold timestamp_le. rewrite Heq. apply string_leb_refl.
  - intros Hnone. destruct (select_messages d id) as [|m l] eqn:E; [reflexivity|].
    exfalso. assert (Hin : In m (select_messages d id)) by (rewrite E; now left).
    apply select_messages_in in Hin. destruct Hin as [Hin Hid].
    exact (Hnone m Hin Hid).
Qed.

(** ** Registering a user *)

(** C10. A register request whose username is already in [users] gets
    the status 1 envelope "Username already exists" and the database, in
    particular the [users] table with its stored passwords, is left as
    it was. *)
Theorem register_existing_username_unchanged (user : UserModel) (d : db) :
  (exists u, In u (rows (users d)) /\ users_username u = username user) ->
  fst (register sha256_hexdigest user d) =
  Returns (unified_response 1 "Username already exists" JNull)
  /\ reply_status (fst (register sha256_hexdigest user d)) = Some 1
  /\ snd (register sha256_hexdigest user d) = d
  /\ users (snd (register sha256_hexdigest user d)) = users d.
Proof.
  intros (u & Hin & Hname).
  destruct (register_cases sha256_hexdigest user d)
    as [(_ & ->)|[(E & _)|(E & _)]].
  - repeat split; reflexivity.
  - exfalso. apply (find_none _ _ E) in Hin. simpl in Hin.
    rewrite Hname, String.eqb_refl in Hin. discriminate.
  - exfalso. apply (find_none _ _ E) in Hin. simpl in Hin.
    rewrite Hname, String.eqb_refl in Hin. discriminate.
Qed.

(** ** Response shapes *)


End Claims.

(** ** create_db *)

(** C9, as the code has it.  Any number of further runs of [create_db]
    leaves the database as the first run left it.  A run keeps every row
    of [chat_rooms] that it finds and adds nothing but seeded rows; it
    adds a seeded row when no row found there has the seed's id or the
    seed's name, and it skips the seed when one has (INSERT OR IGNORE):
    the seeded row is then in the table only if it was there before.  On
    a missing or empty table the rows are exactly (1, General),
    (2, Technology), (3, Random). *)
Theorem create_db_idempotent_seeds_unless_taken (f : db_file) :
  let found := create_table_if_not_exists (file_chat_rooms f) in
  (forall n, rerun_create_db n (create_db f) = create_db f)
  /\ (forall r, In r (rows found) -> In r (rows (chat_rooms (create_db f))))
  /\ (forall r, In r (rows (chat_rooms (create_db f))) ->
                In r (rows found) \/ In r seeded_rooms)
  /\ (forall s, In s seeded_rooms ->
                (forall r, In r (rows found) ->
                           chat_rooms_id r <> chat_rooms_id s
                           /\ chat_rooms_name r <> chat_rooms_name s) ->
                In s (rows (chat_rooms (create_db f))))
  /\ (forall s r, In s seeded_rooms ->
                  In r (rows found) ->
                  chat_rooms_id r = chat_rooms_id s
                  \/ chat_rooms_name r = chat_rooms_name s ->
                  In s (rows (chat_rooms (create_db f))) -> In s (rows found))
  /\ (rows found = [] -> rows (chat_rooms (create_db f)) = seeded_rooms).
Proof.
  intros found. split; [|split; [|split; [|split; [|split]]]].
  - induction n as [|n IH]; [reflexivity|].
    unfold rerun_create_db in *. rewrite Nat.iter_succ, IH. apply create_db_again.
  - intros r Hr. unfold create_db. cbn [chat_rooms].
    now apply executemany_keeps.
  - intros r Hr. unfold create_db in Hr. cbn [chat_rooms] in Hr.
    apply executemany_origin in Hr. fold found in Hr. tauto.
  - intros s Hs Hfree. unfold create_db. cbn [chat_rooms].
    apply executemany_seed_present; [apply seeded_rooms_distinct|assumption|].
    now apply chat_rooms_conflict_false.
  - intros s r Hs Hr Hclash Hin. unfold create_db in Hin. cbn [chat_rooms] in Hin.
    apply executemany_origin in Hin. fold found in Hin.
    destruct Hin as [Hin|[_ Hfree]]; [exact Hin|].
    exfalso.
    destruct (proj1 (chat_rooms_conflict_false s found) Hfree r Hr) as [Hid Hname].
    destruct Hclash as [Hclash|Hclash]; contradiction.
  - intros Hempty. unfold create_db. cbn [chat_rooms]. fold found.
    destruct found as [found_rows found_seq]. simpl in Hempty. subst found_rows.
    reflexivity.
Qed.

(** * Further properties *)

(** For every database, [get_chat_rooms] lists all rows of [chat_rooms],
    each once, by increasing room id; it reports "No chat rooms found"
    with status 1 exactly when the table has no row. *)
Theorem get_chat_rooms_lists_all_by_id (d : db) :
  exists listed,
    Permutation listed (rows (chat_rooms d))
    /\ StronglySorted (fun a b => chat_rooms_id a <= chat_rooms_id b) listed
    /\ get_chat_rooms d =
       match listed with
       | [] => unified_response 1 "No chat rooms found" JNull
       | _ => unified_response 0 "Chat rooms retrieved successfully"
                               (JList (map format_room listed))
       end
    /\ (rows (chat_rooms d) = [] <->
        get_chat_rooms d = unified_response 1 "No chat rooms found" JNull).
Proof.
  exists (select_rooms d).
  assert (Hperm : Permutation (select_rooms d) (rows (chat_rooms d)))
    by apply order_by_perm.
  split; [exact Hperm|]. split; [|split].
  - unfold select_rooms.
    apply StronglySorted_weaken
      with (R1 := sorted_stably (fun a b => chat_rooms_id a <=? chat_rooms_id b)
                                (fun _ _ => True)).
    + intros a b [Hle _]. now apply Z.leb_le.
    + apply order_by_sorted; [| |apply StronglySorted_any].
      * intros a b. rewrite !Z.leb_le. lia.
      * intros a b c. rewrite !Z.leb_le. lia.
  - unfold get_chat_rooms. now destruct (select_rooms d).
  - unfold get_chat_rooms. split.
    + intros Hempty. rewrite Hempty in Hperm.
      apply Permutation_sym, Permutation_nil in Hperm. now rewrite Hperm.
    + destruct (select_rooms d) as [|r l] eqn:E; [|discriminate].
      intros _. now apply Permutation_nil.
Qed.

(** [create_db] never breaks the keys of [chat_rooms]: if the table it
    finds has its rows in strictly increasing id order and no name twice,
    so has the table it leaves, seeded rows included. *)
Theorem create_db_keeps_room_keys (f : db_file) :
  rooms_well_keyed (create_table_if_not_exists (file_chat_rooms f)) ->
  rooms_well_keyed (chat_rooms (create_db f)).
Proof.
  unfold create_db. cbn [chat_rooms].
  generalize (create_table_if_not_exists (file_chat_rooms f)) as t.
  generalize seeded_rooms as seeds.
  induction seeds as [|s seeds IH]; intros t Ht; cbn [executemany fold_left];
    [assumption|].
  apply IH. now apply insert_or_ignore_well_keyed.
Qed.

Lemma select_messages_other_room (msg : MessageModel) (now : string) (d : db)
      (rid : Z) :
  rid <> room_id msg ->
  select_messages (message_stored msg now d) rid = select_messages d rid.
Proof.
  intros Hrid. unfold select_messages. cbn [message_stored messages rows].
  rewrite filter_app. cbn [filter stored_row messages_room_id].
  apply Z.eqb_neq in Hrid. rewrite Z.eqb_sym, Hrid. now rewrite app_nil_r.
Qed.


Section Extras.

Variable P : Type.
Variable send : messaging.Message -> P -> send_result * P.
Variable sha256_hexdigest : string -> string.

(** ** Users *)



(** In a database the server can hold, two logins that return the same
    user id are logins of the same username. *)
Theorem login_ids_identify_users (ua ub : UserModel) (d : db) (id : Z)
        (na nb : string) :
  reachable send sha256_hexdigest d ->
  fst (login sha256_hexdigest ua d) = login_successful id na ->
  fst (login sha256_hexdigest ub d) = login_successful id nb ->
  username ua = username ub /\ na = nb.
Proof.
  intros Hd Ha Hb. apply reachable_db_inv in Hd.
  destruct Hd as [_ Hids _ _ _ _]. apply consecutive_rowids_NoDup in Hids.
  rewrite login_body in Ha, Hb.
  destruct (select_user d (username ua)) as [u|] eqn:Eu; [|discriminate].
  destruct (select_user d (username ub)) as [v|] eqn:Ev; [|discriminate].
  destruct (users_password u =? _)%string; [|discriminate].
  destruct (users_password v =? _)%string; [|discriminate].
  apply select_user_some in Eu, Ev. destruct Eu as [Hu Hun], Ev as [Hv Hvn].
  injection Ha as Hida Hna. injection Hb as Hidb Hnb.
  assert (u = v) as ->.
  { apply (NoDup_map_injective users_id (rows (users d))); try assumption.
    congruence. }
  split; congruence.
Qed.

(** ** What a request can change *)

(** Serving one request never changes [chat_rooms], and in each of
    [users], [push_tokens] and [messages] it keeps every row in place and
    adds at most one row at the end: no handler updates or deletes. *)
Theorem serve_only_appends (req : request) (d : db) (p : P) :
  let d' := snd (fst (serve send sha256_hexdigest req d p)) in
  chat_rooms d' = chat_rooms d
  /\ grown_by_at_most_one (users d) (users d')
  /\ grown_by_at_most_one (push_tokens d) (push_tokens d')
  /\ grown_by_at_most_one (messages d) (messages d').
Proof.
  unfold grown_by_at_most_one.
  destruct req as [user|user|push_token|msg now| |rid|a b today]; cbn [serve].
  - destruct (register_cases sha256_hexdigest user d)
      as [(_ & ->)|[(_ & _ & ->)|(_ & _ & ->)]]; cbn; eauto 8.
  - pose proof (login_unchanged sha256_hexdigest user d) as H.
    destruct (login sha256_hexdigest user d) as [body d']. simpl in *. subst d'.
    auto.
  - destruct (submit_push_token_cases push_token d)
      as [(_ & ->)|[(_ & _ & _ & ->)|[(_ & _ & ->)|(_ & _ & _ & ->)]]];
      cbn; eauto 8.
  - cbn [fst snd].
    destruct (send_message_and_notify_database P send msg now d p)
      as [(-> & _)|(-> & _)]; cbn; eauto 8.
  - cbn. auto.
  - cbn. auto.
  - cbn. auto.
Qed.

(** A request that ends in an exception leaves no trace: the database
    and the provider are as before, and a submit request has committed
    and sent nothing. *)
Theorem raising_request_changes_nothing (req : request) (d : db) (p : P)
        (e : exception) :
  fst (fst (serve send sha256_hexdigest req d p)) = Raises e ->
  snd (fst (serve send sha256_hexdigest req d p)) = d
  /\ snd (serve send sha256_hexdigest req d p) = p
  /\ match req with
     | SendMessageAndNotify msg now =>
         trace (send_message_and_notify send msg now d p) = []
     | _ => True
     end.
Proof.
  destruct req as [user|user|push_token|msg now| |rid|a b today]; cbn [serve].
  - destruct (register_cases sha256_hexdigest user d)
      as [(_ & ->)|[(_ & _ & ->)|(_ & _ & ->)]]; cbn; intros H;
      try discriminate; auto.
  - destruct (login sha256_hexdigest user d). discriminate.
  - destruct (submit_push_token_cases push_token d)
      as [(_ & ->)|[(_ & _ & _ & ->)|[(_ & _ & ->)|(_ & _ & _ & ->)]]];
      cbn; intros H; try discriminate; auto.
  - cbn [fst snd].
    destruct (send_message_and_notify_cases P send msg now d p)
      as [(room & Hroom & Hrid & Hsid & Hleft)
         |[(_ & ->)|[(_ & _ & ->)|[(_ & _ & _ & ->)|(_ & _ & _ & _ & ->)]]]];
      cbn; intros H; try discriminate; auto.
    rewrite (send_message_and_notify_accepted P send msg now d p room) in H
      by assumption.
    discriminate.
  - discriminate.
  - cbn. auto.
  - discriminate.
Qed.

(** ** Invariants of the databases the server can hold *)

(** No two rows of [users] share a username and no two rows of
    [push_tokens] share a token, although only [users.username] is
    declared UNIQUE. *)
Theorem usernames_and_tokens_unique (d : db) :
  reachable send sha256_hexdigest d ->
  NoDup (usernames d) /\ NoDup (select_tokens d).
Proof.
  intros Hd. split.
  - apply reachable_db_inv in Hd. apply Hd.
  - apply reachable_db_ok in Hd. apply Hd.
Qed.

(** The ids of [users], of [push_tokens] and of [messages] are 1, 2, ...,
    n in insertion order: the n-th registered user gets user id n. *)
Theorem rowids_count_insertions (d : db) :
  reachable send sha256_hexdigest d ->
  map users_id (rows (users d))
  = map Z.of_nat (List.seq 1 (List.length (rows (users d))))
  /\ map push_tokens_id (rows (push_tokens d))
     = map Z.of_nat (List.seq 1 (List.length (rows (push_tokens d))))
  /\ map messages_id (rows (messages d))
     = map Z.of_nat (List.seq 1 (List.length (rows (messages d)))).
Proof.
  intros Hd. apply reachable_db_inv in Hd.
  destruct Hd as [_ [Hu _] [Ht _] [Hm _] _ _]. auto.
Qed.

(** The room directory never changes: it holds the three seeded rooms, so
    [get_chat_rooms] always answers with status 0 and these three rooms
    in id order, and never with "No chat rooms found". *)
Theorem rooms_are_the_seeded_rooms (d : db) :
  reachable send sha256_hexdigest d ->
  rows (chat_rooms d) = seeded_rooms
  /\ get_chat_rooms d =
     unified_response 0 "Chat rooms retrieved successfully"
                      (JList (map format_room seeded_rooms)).
Proof.
  intros Hd. apply reachable_db_inv in Hd. destruct Hd as [Hrooms _ _ _ _ _].
  unfold get_chat_rooms, select_rooms. rewrite Hrooms. split; reflexivity.
Qed.

(** Running [create_db] again, as a restart of the server does, leaves
    the whole database as it was. *)
Theorem restart_keeps_database (d : db) :
  reachable send sha256_hexdigest d -> create_db (on_disk d) = d.
Proof.
  intros Hd. apply reachable_db_inv in Hd. apply create_db_fixed_rooms. apply Hd.
Qed.

(** Every stored message belongs to a room that exists, so the message
    can be read back: [get_messages] for its room answers with status 0
    and lists it. *)
Theorem stored_messages_have_rooms (d : db) (m : messages_row) :
  reachable send sha256_hexdigest d ->
  In m (rows (messages d)) ->
  exists room listed,
    In room (rows (chat_rooms d))
    /\ chat_rooms_id room = messages_room_id m
    /\ get_messages (messages_room_id m) d =
       Returns (unified_response 0
                  ("Messages retrieved successfully from "
                     ++ chat_rooms_name room)%string
                  (JList listed))
    /\ In (format_message m) listed.
Proof.
  intros Hd Hm.
  pose proof (reachable_db_inv P send sha256_hexdigest d Hd) as [_ _ _ _ _ Hrooms].
  rewrite Forall_forall in Hrooms. destruct (Hrooms m Hm) as [room Hroom].
  destruct (reachable_room_id P send sha256_hexdigest d _ room Hd Hroom) as [_ Hfit].
  exists room. eexists.
  rewrite (get_messages_found d _ room Hfit Hroom).
  apply select_room_some in Hroom. destruct Hroom as [Hin Hid].
  repeat (split; [eassumption || reflexivity|]).
  apply in_map. apply select_messages_in. now split.
Qed.


(** ** Posting and reading back *)


(** A submit request changes the listing of no other room. *)
Theorem other_rooms_unaffected (msg : MessageModel) (now : string)
        (d : db) (p : P) (rid : Z) :
  rid <> room_id msg ->
  get_messages rid (database (send_message_and_notify send msg now d p)) =
  get_messages rid d.
Proof.
  intros Hrid.
  destruct (send_message_and_notify_database P send msg now d p)
    as [(-> & _)|(-> & _)]; [|reflexivity].
  unfold get_messages, execute_select_messages.
  change (execute_select_room (message_stored msg now d) rid)
    with (execute_select_room d rid).
  now rewrite (select_messages_other_room msg now d rid Hrid).
Qed.


(** ** Push tokens *)


(** ** Outcomes follow the provider *)






(** ** The loop *)

(** The loop over a list of tokens followed by further tokens is the
    loop over the first list, then the loop over the further tokens with
    the provider as the first loop left it: the entries and sends for the
    first tokens are the same whatever tokens follow. *)
Theorem notify_app (room : chat_rooms_row) (msg : MessageModel)
        (tokens more : list string) (p : P) :
  notify send room msg (tokens ++ more) p =
  let '(notifications1, sent1, p1) := notify send room msg tokens p in
  let '(notifications2, sent2, p2) := notify send room msg more p1 in
  (notifications1 ++ notifications2, sent1 ++ sent2, p2).
Proof.
  revert p. induction tokens as [|tok tokens IH]; intros p; simpl.
  - now destruct (notify send room msg more p) as [[? ?] ?].
  - destruct (send _ p) as [result p1]. rewrite IH.
    destruct (notify send room msg tokens p1) as [[ns1 sent1] p2].
    now destruct (notify send room msg more p2) as [[ns2 sent2] p3].
Qed.

(** ** Integers that do not fit and ids that run out *)


End Extras.

(** * The properties on concrete runs *)

Import Examples.

Lemma two_tokens_reachable (P : Type) (send : messaging.Message -> P -> send_result * P)
      (p : P) : reachable send sha two_tokens.
Proof.
  exact (reachable_serve send sha _
           (SubmitPushToken {| user_id := 2; token := "t2" |}) p
           (reachable_serve send sha _
              (SubmitPushToken {| user_id := 1; token := "t1" |}) p
              (reachable_serve send sha _ (Register alice) p
                 (reachable_first_start send sha)))).
Defined.

Lemma three_messages_reachable : reachable flaky_send sha three_messages.
Proof.
  exact (reachable_serve flaky_send sha _
           (SendMessageAndNotify (hi 1) "2024-11-19 10:00:07") 0%nat
           (reachable_serve flaky_send sha _
              (SendMessageAndNotify (hi 1) "2024-11-19 10:00:05") 0%nat
              (reachable_serve flaky_send sha _
                 (SendMessageAndNotify (hi 1) "2024-11-19 10:00:07") 0%nat
                 (two_tokens_reachable nat flaky_send 0%nat)))).
Defined.




(** ** The claims *)

(** C1 on a request for room 99, which does not exist. *)
Lemma invalid_room_nothing_persisted_witness :
  (forall room, In room (rows (chat_rooms two_tokens)) -> chat_rooms_id room <> 99)
  /\ response (send_message_and_notify recording_send (hi 99) "2024-11-19 10:00:05"
                                       two_tokens [])
     = Returns (unified_response 1 "Invalid room ID" JNull)
  /\ trace (send_message_and_notify recording_send (hi 99) "2024-11-19 10:00:05"
                                    two_tokens []) = []
  /\ provider (send_message_and_notify recording_send (hi 99) "2024-11-19 10:00:05"
                                       two_tokens []) = []
  /\ database (send_message_and_notify recording_send (hi 99) "2024-11-19 10:00:05"
                                       two_tokens []) = two_tokens.
Proof.
  assert (H : forall room, In room (rows (chat_rooms two_tokens)) ->
                           chat_rooms_id room <> room_id (hi 99)).
  { intros room Hin. vm_compute in Hin.
    destruct Hin as [<-|[<-|[<-|[]]]]; simpl; lia. }
  split; [exact H|].
  destruct (invalid_room_nothing_persisted _ recording_send (hi 99)
              "2024-11-19 10:00:05" two_tokens [] H)
    as (Hfits & _ & Htrace & Hprovider & Hdb & _).
  destruct (Hfits eq_refl) as [Hresp _].
  repeat split; assumption.
Defined.

(** C1 as stated fails: room id 2^63 belongs to no room, and the request
    is answered by an exception, not by the "Invalid room ID" envelope. *)
Lemma invalid_room_id_2_63_raises :
  (forall room, In room (rows (chat_rooms two_tokens)) -> chat_rooms_id room <> 2 ^ 63)
  /\ response (send_message_and_notify recording_send (hi (2 ^ 63))
                                       "2024-11-19 10:00:05" two_tokens [])
     = Raises OverflowError
  /\ response (send_message_and_notify recording_send (hi (2 ^ 63))
                                       "2024-11-19 10:00:05" two_tokens [])
     <> Returns (unified_response 1 "Invalid room ID" JNull).
Proof.
  split; [|split; [reflexivity|discriminate]].
  intros room Hin. vm_compute in Hin.
  destruct Hin as [<-|[<-|[<-|[]]]]; discriminate.
Qed.

(** C2 with two tokens, the second of which the provider rejects. *)
Lemma one_outcome_per_token_witness :
  reply_status (response (send_message_and_notify
                            recording_send (hi 1) "2024-11-19 10:00:05" two_tokens []))
  = Some 0
  /\ response (send_message_and_notify recording_send (hi 1) "2024-11-19 10:00:05"
                                       two_tokens [])
     = Returns (unified_response 0 "Message sent and notifications processed"
                  (JObj [("notifications",
                          JList [JObj [("token", JStr "t1");
                                       ("response", JStr "projects/chat/messages/1")];
                                 JObj [("token", JStr "t2");
                                       ("error", JStr "UNREGISTERED")]])]))
  /\ exists notifications,
      response (send_message_and_notify recording_send (hi 1) "2024-11-19 10:00:05"
                                        two_tokens [])
      = Returns (unified_response 0 "Message sent and notifications processed"
                   (JObj [("notifications", JList notifications)]))
      /\ List.length notifications = 2%nat.
Proof.
  split; [reflexivity|]. split; [reflexivity|].
  destruct (one_outcome_per_token _ recording_send (hi 1) "2024-11-19 10:00:05"
              two_tokens [] eq_refl)
    as (room & ns & _ & Hresp & Hlen & _).
  exists ns. split; [exact Hresp|exact Hlen].
Defined.





(** C8: alice posts "hi" to General; the provider gets one message per
    token, her own token "t1" first. *)
Lemma notification_content_and_destinations_witness :
  reply_status (response (send_message_and_notify
                            recording_send (hi 1) "2024-11-19 10:00:05" two_tokens []))
  = Some 0
  /\ provider (send_message_and_notify recording_send (hi 1) "2024-11-19 10:00:05"
                                       two_tokens [])
     = [ {| messaging.notification :=
              {| messaging.title := "General: alice"; messaging.body := "hi" |};
            messaging.token := "t2" |};
         {| messaging.notification :=
              {| messaging.title := "General: alice"; messaging.body := "hi" |};
            messaging.token := "t1" |} ].
Proof.
  split; [reflexivity|].
  destruct (notification_content_and_destinations _ recording_send (hi 1)
              "2024-11-19 10:00:05" two_tokens [] eq_refl)
    as (room & Hroom & Hprovider & _).
  rewrite Hprovider.
  assert (room = general) as ->
      by (vm_compute in Hroom; injection Hroom as <-; reflexivity).
  reflexivity.
Defined.



(** C7 on three messages whose timestamps are 07, 05 and 07 seconds. *)
Lemma get_messages_by_timestamp_then_id_witness :
  reachable flaky_send sha three_messages
  /\ select_room three_messages 1 = Some general
  /\ exists listed,
      get_messages 1 three_messages =
      Returns (unified_response 0 "Messages retrieved successfully from General"
                 (JList (map format_message listed)))
      /\ (forall i j a b,
             (i < j)%nat -> nth_error listed i = Some a -> nth_error listed j = Some b ->
             listed_before a b).
Proof.
  split; [exact three_messages_reachable|]. split; [reflexivity|].
  destruct (get_messages_by_timestamp_then_id nat flaky_send sha three_messages 1 general
              three_messages_reachable eq_refl) as (listed & Hbody & _ & _ & Horder & _).
  exists listed. split; assumption.
Defined.

(** C10: alice registers again with another password. *)
Lemma register_existing_username_unchanged_witness :
  (exists u, In u (rows (users two_tokens)) /\ users_username u = "alice")
  /\ register sha {| username := "alice"; password := "other" |} two_tokens
     = (Returns (unified_response 1 "Username already exists" JNull), two_tokens).
Proof.
  assert (H : exists u, In u (rows (users two_tokens))
                        /\ users_username u
                           = username {| username := "alice"; password := "other" |}).
  { exists {| users_id := 1; users_username := "alice";
              users_password := "sha256:secret" |}.
    split; [left|]; reflexivity. }
  split; [exact H|].
  destruct (register_existing_username_unchanged sha
              {| username := "alice"; password := "other" |} two_tokens H)
    as (Hbody & _ & Hdb & _).
  rewrite (surjective_pairing (register sha _ two_tokens)).
  now rewrite Hbody, Hdb.
Defined.

(** C9 on a file where room 1 is already called Lobby: the row stays,
    Technology and Random are added, General is skipped. *)
Lemma create_db_idempotent_seeds_unless_taken_witness :
  create_db (on_disk (create_db lobby_file)) = create_db lobby_file
  /\ In {| chat_rooms_id := 1; chat_rooms_name := "Lobby" |}
        (rows (chat_rooms (create_db lobby_file)))
  /\ In {| chat_rooms_id := 2; chat_rooms_name := "Technology" |}
        (rows (chat_rooms (create_db lobby_file)))
  /\ ~ In general (rows (chat_rooms (create_db lobby_file))).
Proof.
  destruct (create_db_idempotent_seeds_unless_taken lobby_file)
    as (Hagain & Hkept & _ & Hseed & Hskip & _).
  split; [exact (Hagain 1%nat)|]. split; [|split].
  - apply Hkept. left. reflexivity.
  - apply Hseed.
    + right. left. reflexivity.
    + intros r [<-|[]]. split; simpl; [lia|discriminate].
  - intros Hin.
    apply (Hskip general {| chat_rooms_id := 1; chat_rooms_name := "Lobby" |}) in Hin.
    + destruct Hin as [Hin|[]]. discriminate Hin.
    + left. reflexivity.
    + left. reflexivity.
    + left. reflexivity.
Defined.



(** C9 as stated fails: when the file already has a room with id 1, the
    seeded row (1, General) is not in [chat_rooms] after [create_db]. *)
Lemma seed_skipped_when_id_taken :
  In general seeded_rooms
  /\ rows (chat_rooms (create_db lobby_file))
     = [ {| chat_rooms_id := 1; chat_rooms_name := "Lobby" |};
         {| chat_rooms_id := 2; chat_rooms_name := "Technology" |};
         {| chat_rooms_id := 3; chat_rooms_name := "Random" |} ]
  /\ ~ In general (rows (chat_rooms (create_db lobby_file))).
Proof.
  split; [left; reflexivity|]. split; [reflexivity|].
  intros [H|[H|[H|[]]]]; discriminate H.
Qed.

(** ** The further properties *)



Lemma login_ids_identify_users_witness :
  reachable flaky_send sha two_tokens
  /\ fst (login sha alice two_tokens) = login_successful 1 "alice"
  /\ username alice = username alice /\ "alice" = "alice".
Proof.
  split; [exact (two_tokens_reachable nat flaky_send 0%nat)|].
  split; [reflexivity|].
  exact (login_ids_identify_users nat flaky_send sha alice alice two_tokens 1
           "alice" "alice" (two_tokens_reachable nat flaky_send 0%nat)
           eq_refl eq_refl).
Defined.

Lemma usernames_and_tokens_unique_witness :
  reachable flaky_send sha two_tokens
  /\ NoDup (usernames two_tokens) /\ NoDup (select_tokens two_tokens).
Proof.
  split; [exact (two_tokens_reachable nat flaky_send 0%nat)|].
  exact (usernames_and_tokens_unique nat flaky_send sha two_tokens
           (two_tokens_reachable nat flaky_send 0%nat)).
Defined.

Lemma rowids_count_insertions_witness :
  reachable flaky_send sha three_messages
  /\ map messages_id (rows (messages three_messages)) = [1; 2; 3].
Proof.
  split; [exact three_messages_reachable|].
  exact (proj2 (proj2 (rowids_count_insertions nat flaky_send sha three_messages
                         three_messages_reachable))).
Defined.

Lemma rooms_are_the_seeded_rooms_witness :
  reachable flaky_send sha three_messages
  /\ rows (chat_rooms three_messages) = seeded_rooms.
Proof.
  split; [exact three_messages_reachable|].
  exact (proj1 (rooms_are_the_seeded_rooms nat flaky_send sha three_messages
                  three_messages_reachable)).
Defined.

Lemma restart_keeps_database_witness :
  reachable flaky_send sha three_messages
  /\ create_db (on_disk three_messages) = three_messages.
Proof.
  split; [exact three_messages_reachable|].
  exact (restart_keeps_database nat flaky_send sha three_messages
           three_messages_reachable).
Defined.

Lemma stored_messages_have_rooms_witness :
  reachable flaky_send sha three_messages
  /\ In (stored_row (hi 1) "2024-11-19 10:00:07" two_tokens)
        (rows (messages three_messages))
  /\ exists room listed,
      In room (rows (chat_rooms three_messages))
      /\ chat_rooms_id room = 1
      /\ get_messages 1 three_messages =
         Returns (unified_response 0
                    ("Messages retrieved successfully from "
                       ++ chat_rooms_name room)%string
                    (JList listed))
      /\ In (format_message (stored_row (hi 1) "2024-11-19 10:00:07" two_tokens)) listed.
Proof.
  assert (H : In (stored_row (hi 1) "2024-11-19 10:00:07" two_tokens)
                 (rows (messages three_messages))) by (left; reflexivity).
  split; [exact three_messages_reachable|]. split; [exact H|].
  exact (stored_messages_have_rooms nat flaky_send sha three_messages _
           three_messages_reachable H).
Defined.



Lemma other_rooms_unaffected_witness :
  2 <> room_id (hi 1)
  /\ get_messages 2
       (database (send_message_and_notify flaky_send (hi 1) "2024-11-19 10:00:07"
                                          three_messages 0%nat))
     = get_messages 2 three_messages.
Proof.
  assert (H : 2 <> room_id (hi 1)) by (simpl; lia).
  split; [exact H|].
  exact (other_rooms_unaffected nat flaky_send (hi 1) "2024-11-19 10:00:07"
           three_messages 0%nat 2 H).
Defined.




Lemma get_chat_rooms_lists_all_by_id_witness :
  exists listed,
    Permutation listed (rows (chat_rooms (create_db lobby_file)))
    /\ StronglySorted (fun a b => chat_rooms_id a <= chat_rooms_id b) listed.
Proof.
  destruct (get_chat_rooms_lists_all_by_id (create_db lobby_file))
    as (listed & Hperm & Hsorted & _).
  exists listed. split; assumption.
Defined.

Lemma create_db_keeps_room_keys_witness :
  rooms_well_keyed (create_table_if_not_exists (file_chat_rooms general_at_7_file))
  /\ rooms_well_keyed (chat_rooms (create_db general_at_7_file)).
Proof.
  assert (H : rooms_well_keyed
                (create_table_if_not_exists (file_chat_rooms general_at_7_file))).
  { split; cbn; repeat constructor; intros []. }
  split; [exact H|]. exact (create_db_keeps_room_keys general_at_7_file H).
Defined.

Lemma raising_request_changes_nothing_witness :
  fst (fst (serve recording_send sha
                  (SendMessageAndNotify hi_from_2_63 "2024-11-19 10:00:05")
                  two_tokens []))
  = Raises OverflowError
  /\ snd (fst (serve recording_send sha
                     (SendMessageAndNotify hi_from_2_63 "2024-11-19 10:00:05")
                     two_tokens []))
     = two_tokens
  /\ snd (serve recording_send sha
                (SendMessageAndNotify hi_from_2_63 "2024-11-19 10:00:05")
                two_tokens [])
     = [].
Proof.
  split; [reflexivity|].
  destruct (raising_request_changes_nothing _ recording_send sha
              (SendMessageAndNotify hi_from_2_63 "2024-11-19 10:00:05")
              two_tokens [] OverflowError eq_refl)
    as (Hdb & Hprovider & _).
  split; assumption.
Defined.

